(** * async-script-loader: a shallow embedding and its verified properties

    The repository holds two versions of one loader:
    - [src/src/index.ts]      (module [Strict]): validation is factored into
      [validateInputs], enforces the http/https protocols and rejects blank
      parameter keys, and probes for a browser environment first;
    - [src/unnamed/part_000]  (module [Loose]): validation is inlined, the URL
      is parsed only when it starts with "http", keys are not checked.

    Both end in the same load/error/timeout race, modelled once in [Race].

    JavaScript strings are sequences of UTF-16 code units ([list Z]); values
    of type [unknown] are the inductive [JsValue]; thrown exceptions are the
    [Throw] case of [Completion]; the DOM and the pending promise are explicit
    state. *)

From Stdlib Require Import ZArith List Bool String Ascii Lia.
From Stdlib Require Import DecimalString.
Import ListNotations.

Local Open Scope Z_scope.

#[local] Set Warnings "-register-all".

(* ===================================================================== *)
(** ** JavaScript strings *)
(* ===================================================================== *)

(** A string is its sequence of UTF-16 code units. *)
Definition jsstring := list Z.

(** Source literals are ASCII; [js] turns a Rocq literal into code units. *)
Definition js (s : string) : jsstring :=
  List.map (fun a => Z.of_N (N_of_ascii a)) (list_ascii_of_string s).

(** [a === b] on two strings. *)
Fixpoint jsstring_eqb (a b : jsstring) : bool :=
  match a, b with
  | [], [] => true
  | c :: a', d :: b' => (c =? d) && jsstring_eqb a' b'
  | _, _ => false
  end.

(** ECMAScript WhiteSpace and LineTerminator code points, all in the BMP. *)
Definition isWhiteSpace (c : Z) : bool :=
  (c =? 9) || (c =? 10) || (c =? 11) || (c =? 12) || (c =? 13) || (c =? 32)
  || (c =? 160) || (c =? 5760) || ((8192 <=? c) && (c <=? 8202))
  || (c =? 8232) || (c =? 8233) || (c =? 8239) || (c =? 8287)
  || (c =? 12288) || (c =? 65279).

Fixpoint trimStart (s : jsstring) : jsstring :=
  match s with
  | [] => []
  | c :: rest => if isWhiteSpace c then trimStart rest else s
  end.

Definition trimEnd (s : jsstring) : jsstring := rev (trimStart (rev s)).

(** [String.prototype.trim]. *)
Definition trim (s : jsstring) : jsstring := trimEnd (trimStart s).

(** [String.prototype.startsWith] (position 0). *)
Fixpoint startsWith (s p : jsstring) : bool :=
  match p, s with
  | [], _ => true
  | _ :: _, [] => false
  | c :: p', d :: s' => (c =? d) && startsWith s' p'
  end.

(** [String.prototype.includes]. *)
Fixpoint includes (s sub : jsstring) : bool :=
  startsWith s sub ||
  match s with
  | [] => false
  | _ :: s' => includes s' sub
  end.

(** Number-to-string conversion of an integral number value, as a template
    literal performs it. *)
Definition numberToString (n : Z) : jsstring :=
  js (NilZero.string_of_int (Z.to_int n)).

(* ===================================================================== *)
(** ** Values, errors, completions *)
(* ===================================================================== *)

(** Values a caller can pass where the source says [unknown].  An object is
    its own enumerable string-keyed properties in [Object.keys] order.  The
    payload of a number is never inspected by the loader. *)
Inductive JsValue :=
| JUndefined
| JNull
| JBoolean (b : bool)
| JNumber (n : Z)
| JString (s : jsstring)
| JArray (elements : list JsValue)
| JObject (props : list (jsstring * JsValue)).

Inductive ErrorClass := ErrorC | TypeErrorC | URIErrorC | ReferenceErrorC.

(** An exception object: its constructor and its message. *)
Record JsError := mkError { errClass : ErrorClass; errMessage : jsstring }.

Definition newError (m : jsstring) : JsError := mkError ErrorC m.
Definition newTypeError (m : jsstring) : JsError := mkError TypeErrorC m.

Inductive Completion (A : Type) :=
| Normal (a : A)
| Throw (e : JsError).
Arguments Normal {A} a.
Arguments Throw {A} e.

Definition bind {A B} (c : Completion A) (k : A -> Completion B) : Completion B :=
  match c with
  | Normal a => k a
  | Throw e => Throw e
  end.

Notation "x <- c ;; k" := (bind c (fun x => k))
  (at level 61, c at next level, right associativity).

Definition typeof (v : JsValue) : jsstring :=
  match v with
  | JUndefined => js "undefined"
  | JNull => js "object"
  | JBoolean _ => js "boolean"
  | JNumber _ => js "number"
  | JString _ => js "string"
  | JArray _ => js "object"
  | JObject _ => js "object"
  end.

Definition isArray (v : JsValue) : bool :=
  match v with JArray _ => true | _ => false end.

(** [Object.keys(o)]. *)
Definition keys (props : list (jsstring * JsValue)) : list jsstring :=
  List.map fst props.

(** [o[key]]: the property's value, [undefined] when there is none. *)
Fixpoint get (props : list (jsstring * JsValue)) (key : jsstring) : JsValue :=
  match props with
  | [] => JUndefined
  | (k, v) :: rest => if jsstring_eqb k key then v else get rest key
  end.

(** [ToString] of the abstract operations, for the argument conversion of
    [encodeURIComponent]. *)
Fixpoint ToString (v : JsValue) : jsstring :=
  match v with
  | JUndefined => js "undefined"
  | JNull => js "null"
  | JBoolean true => js "true"
  | JBoolean false => js "false"
  | JNumber n => numberToString n
  | JString s => s
  | JArray l =>
      (fix join (l : list JsValue) : jsstring :=
         match l with
         | [] => []
         | x :: rest =>
             let e := match x with
                      | JUndefined | JNull => []
                      | _ => ToString x
                      end in
             match rest with
             | [] => e
             | _ :: _ => e ++ js "," ++ join rest
             end
         end) l
  | JObject _ => js "[object Object]"
  end.

(* ===================================================================== *)
(** ** encodeURIComponent *)
(* ===================================================================== *)

Definition isAsciiAlpha (c : Z) : bool :=
  ((65 <=? c) && (c <=? 90)) || ((97 <=? c) && (c <=? 122)).

Definition isAsciiDigit (c : Z) : bool := (48 <=? c) && (c <=? 57).

(** The unescaped set of [encodeURIComponent]: ASCII letters, digits and
    the marks - _ . ! ~ * ' ( ). *)
Definition isUnescaped (c : Z) : bool :=
  isAsciiAlpha c || isAsciiDigit c
  || (c =? 45) || (c =? 95) || (c =? 46) || (c =? 33) || (c =? 126)
  || (c =? 42) || (c =? 39) || (c =? 40) || (c =? 41).

Definition isLeadingSurrogate (c : Z) : bool := (55296 <=? c) && (c <=? 56319).
Definition isTrailingSurrogate (c : Z) : bool := (56320 <=? c) && (c <=? 57343).

(** Code point of a surrogate pair. *)
Definition UTF16SurrogatePairToCodePoint (lead trail : Z) : Z :=
  (lead - 55296) * 1024 + (trail - 56320) + 65536.

(** The UTF-8 transformation of a code point into its octets. *)
Definition utf8Encode (cp : Z) : list Z :=
  if cp <? 128 then [cp]
  else if cp <? 2048 then [192 + cp / 64; 128 + cp mod 64]
  else if cp <? 65536 then
    [224 + cp / 4096; 128 + (cp / 64) mod 64; 128 + cp mod 64]
  else
    [240 + cp / 262144; 128 + (cp / 4096) mod 64; 128 + (cp / 64) mod 64;
     128 + cp mod 64].

(** One upper-case hexadecimal digit. *)
Definition hexDigit (n : Z) : Z := if n <? 10 then 48 + n else 55 + n.

(** "%XY" for one octet. *)
Definition percentOctet (b : Z) : jsstring :=
  [37; hexDigit (b / 16); hexDigit (b mod 16)].

Definition percentOctets (bs : list Z) : jsstring :=
  List.flat_map percentOctet bs.

Definition URIError_malformed : JsError := mkError URIErrorC (js "URI malformed").

(** The abstract operation [Encode] with the unescaped set above: unescaped
    code units are copied, every other code point is written as the escaped
    octets of its UTF-8 form, an unpaired surrogate throws [URIError]. *)
Fixpoint Encode (s : jsstring) : Completion jsstring :=
  match s with
  | [] => Normal []
  | c :: rest =>
      if isUnescaped c then
        r <- Encode rest ;; Normal (c :: r)
      else if isLeadingSurrogate c then
        match rest with
        | d :: rest' =>
            if isTrailingSurrogate d then
              r <- Encode rest' ;;
              Normal (percentOctets (utf8Encode (UTF16SurrogatePairToCodePoint c d)) ++ r)
            else Throw URIError_malformed
        | [] => Throw URIError_malformed
        end
      else if isTrailingSurrogate c then Throw URIError_malformed
      else
        r <- Encode rest ;; Normal (percentOctets (utf8Encode c) ++ r)
  end.

Definition encodeURIComponent (uriComponent : JsValue) : Completion jsstring :=
  Encode (ToString uriComponent).

(** [Array.prototype.reduce] with an initial value; the callback receives the
    accumulator, the element and its index, and may throw. *)
Fixpoint reduce {A B : Type} (callback : B -> A -> nat -> Completion B)
    (l : list A) (index : nat) (acc : B) : Completion B :=
  match l with
  | [] => Normal acc
  | x :: rest => acc' <- callback acc x index ;; reduce callback rest (S index) acc'
  end.

(* ===================================================================== *)
(** ** The ambient environment *)
(* ===================================================================== *)

(** What the loader reads from its surroundings and never writes.
    [window_location_origin] is [None] where no global [window] (and no
    [document]) exists; the two globals come and go together here, an
    environment with a [window] and no [document] is not covered.  [URL_protocol input base] stands for
    [new URL(input, base).protocol]; it is [None] where the constructor
    throws.  The URL parser belongs to the platform, so every general
    theorem below holds for an arbitrary one. *)
Record Env := mkEnv {
  window_location_origin : option jsstring;
  URL_protocol : jsstring -> option jsstring -> option jsstring
}.

(** Outcome of [validateInputs]: [{ valid: true }] or
    [{ valid: false, error }]; every return site of the source builds one
    of these two shapes. *)
Inductive ValidationResult :=
| Valid
| Invalid (error : JsError).

Definition valid (r : ValidationResult) : bool :=
  match r with Valid => true | Invalid _ => false end.

(** Thrown where [Strict.generateUrl] takes the typed view of its validated
    arguments and they are not a string and a plain object;
    [validateInputs_Valid] shows this never happens. *)
Definition notValidated : JsError := newTypeError (js "not validated").

(* ===================================================================== *)
(** ** The document and the pending load *)
(* ===================================================================== *)

Record ScriptElement := mkScript { src : jsstring; async : bool }.

(** A child of a head element: a node the page already had, or a script
    element made by [createElement], named by its handle. *)
Inductive Node :=
| DocNode (n : nat)
| ScriptNode (handle : nat).

Definition Node_eqb (a b : Node) : bool :=
  match a, b with
  | DocNode n, DocNode m => Nat.eqb n m
  | ScriptNode n, ScriptNode m => Nat.eqb n m
  | _, _ => false
  end.

(** The part of the DOM the loader can touch: the script elements created
    so far (attached or not) and the children of each head element, in
    document order. *)
Record Document := mkDocument {
  created : list ScriptElement;
  heads : list (list Node)
}.

(** [document.createElement('script')]: a fresh detached element. *)
Definition createElement (d : Document) : nat * Document :=
  (List.length (created d),
   mkDocument (created d ++ [mkScript [] true]) (heads d)).

Fixpoint updateNth {A} (l : list A) (n : nat) (f : A -> A) : list A :=
  match l, n with
  | [], _ => []
  | x :: r, O => f x :: r
  | x :: r, S n' => x :: updateNth r n' f
  end.

(** [el.src = v] *)
Definition set_src (el : nat) (v : jsstring) (d : Document) : Document :=
  mkDocument (updateNth (created d) el (fun e => mkScript v (async e))) (heads d).

(** [el.async = v] *)
Definition set_async (el : nat) (v : bool) (d : Document) : Document :=
  mkDocument (updateNth (created d) el (fun e => mkScript (src e) v)) (heads d).

(** [document.getElementsByTagName('head')[0]]: the index of the first head
    element, [None] for [undefined]. *)
Definition getElementsByTagName_head_0 (d : Document) : option nat :=
  match heads d with
  | [] => None
  | _ :: _ => Some O
  end.

Definition removeNode (n : Node) (children : list Node) : list Node :=
  List.filter (fun c => negb (Node_eqb c n)) children.

(** [head.insertAdjacentElement('beforeend', el)]: the element leaves its
    former parent, if any, and becomes the last child of [head]. *)
Definition insertAdjacentElement_beforeend (head : nat) (el : nat) (d : Document)
  : Document :=
  mkDocument (created d)
    (updateNth (List.map (removeNode (ScriptNode el)) (heads d)) head
       (fun children => children ++ [ScriptNode el])).

Fixpoint findParent (n : Node) (hs : list (list Node)) (index : nat) : option nat :=
  match hs with
  | [] => None
  | children :: rest =>
      if List.existsb (Node_eqb n) children then Some index
      else findParent n rest (S index)
  end.

(** [el.parentNode], [None] for [null]. *)
Definition parentNode (el : nat) (d : Document) : option nat :=
  findParent (ScriptNode el) (heads d) O.

(** [parent.removeChild(el)] *)
Definition removeChild (parent : nat) (el : nat) (d : Document) : Document :=
  mkDocument (created d) (updateNth (heads d) parent (removeNode (ScriptNode el))).

(** The one-shot completion primitive. *)
Inductive PromiseState :=
| Pending
| Fulfilled
| Rejected (reason : JsError).

(** What the executor of [new Promise] leaves behind for one invocation: the
    closure variables, the armed timer, the two registered listeners, the
    promise, and a log of every call of [resolve] or [reject]. *)
Record Race := mkRace {
  scriptElement : nat;
  constructedUrl : jsstring;
  timeoutDuration : Z;
  timeoutPending : bool;
  loadListener : bool;
  errorListener : bool;
  promise : PromiseState;
  settleCalls : list PromiseState
}.

Record World := mkWorld { document : Document; race : Race }.

(** The three things that can happen to a pending load. *)
Inductive Event :=
| LoadEvent
| ErrorEvent
| TimerExpires.

(** [cleanup(removeElement)] *)
Definition cleanup (removeElement : bool) (w : World) : World :=
  let r := race w in
  (* clearTimeout(timeout); removeEventListener('load'); removeEventListener('error') *)
  let r' := mkRace (scriptElement r) (constructedUrl r) (timeoutDuration r)
              false false false (promise r) (settleCalls r) in
  let d' :=
    if removeElement then
      match parentNode (scriptElement r) (document w) with
      | Some parent => removeChild parent (scriptElement r) (document w)
      | None => document w
      end
    else document w in
  mkWorld d' r'.

(** A call of [resolve] or [reject]: it is logged, and it settles the promise
    only while the promise is pending. *)
Definition settle (outcome : PromiseState) (w : World) : World :=
  let r := race w in
  mkWorld (document w)
    (mkRace (scriptElement r) (constructedUrl r) (timeoutDuration r)
       (timeoutPending r) (loadListener r) (errorListener r)
       (match promise r with Pending => outcome | settled => settled end)
       (settleCalls r ++ [outcome])).

Definition timeoutMessage (r : Race) : jsstring :=
  js "Script loading timed out after " ++ numberToString (timeoutDuration r)
  ++ js "ms: " ++ constructedUrl r.

Definition loadErrorMessage (r : Race) : jsstring :=
  js "Failed to load " ++ constructedUrl r ++ js ".".

(** The callback given to [setTimeout]. *)
Definition onTimeout (w : World) : World :=
  let w1 := cleanup true w in
  settle (Rejected (newError (timeoutMessage (race w1)))) w1.

Definition onLoad (w : World) : World :=
  let w1 := cleanup false w in
  settle Fulfilled w1.

Definition onError (w : World) : World :=
  let w1 := cleanup true w in
  settle (Rejected (newError (loadErrorMessage (race w1)))) w1.

(** The timer is single-shot: expiring, it stops being pending whatever its
    callback does. *)
Definition expire (w : World) : World :=
  let r := race w in
  mkWorld (document w)
    (mkRace (scriptElement r) (constructedUrl r) (timeoutDuration r)
       false (loadListener r) (errorListener r) (promise r) (settleCalls r)).

(** Delivery of one event: a listener runs only while registered, the timer
    callback only while the timer has been neither cleared nor fired. *)
Definition dispatch (ev : Event) (w : World) : World :=
  match ev with
  | LoadEvent => if loadListener (race w) then onLoad w else w
  | ErrorEvent => if errorListener (race w) then onError w else w
  | TimerExpires => if timeoutPending (race w) then onTimeout (expire w) else w
  end.

Definition run (evs : list Event) (w : World) : World :=
  List.fold_left (fun w ev => dispatch ev w) evs w.

(** The executor of [new Promise]: arms the timer, registers both listeners. *)
Definition newRace (el : nat) (url : jsstring) (duration : Z) : Race :=
  mkRace el url duration true true true Pending [].

(** What a call of the loader hands back: [Promise.reject(e)], or the promise
    of a started race. *)
Inductive LoaderResult :=
| RejectedPromise (reason : JsError)
| Racing (r : Race).

(** The double quote of a template literal, U+0022. *)
Definition quote : jsstring := [34].

(** The first key, in iteration order, whose value is not a string: the
    [typeof o[key] !== 'string'] test of the validation loops. *)
Fixpoint firstNonString (params : list (jsstring * JsValue)) (ks : list jsstring)
  : option jsstring :=
  match ks with
  | [] => None
  | key :: rest =>
      match get params key with
      | JString _ => firstNonString params rest
      | _ => Some key
      end
  end.

(* ===================================================================== *)
(** ** src/src/index.ts *)
(* ===================================================================== *)

Module Strict.

(** The [for (const key of Object.keys(params))] loop of [validateInputs]. *)
Fixpoint validateKeys (params : list (jsstring * JsValue)) (ks : list jsstring)
  : ValidationResult :=
  match ks with
  | [] => Valid
  | key :: rest =>
      if jsstring_eqb (trim key) [] then
        Invalid (newError (js "queryParamsObject keys cannot be empty"))
      else
        match get params key with
        | JString _ => validateKeys params rest
        | _ =>
            Invalid (newTypeError
              (js "queryParamsObject value for key " ++ quote ++ key ++ quote
               ++ js " must be a string"))
        end
  end.

Definition validateInputs (env : Env) (baseUrl queryParamsObject : JsValue)
  : ValidationResult :=
  match baseUrl with
  | JString baseUrl =>
      if jsstring_eqb (trim baseUrl) [] then
        Invalid (newError (js "baseUrl cannot be empty"))
      else
        (* try { new URL(baseUrl, window.location.origin) } catch { ... }:
           a missing [window] raises inside the [try] as well *)
        let url :=
          match window_location_origin env with
          | Some origin => URL_protocol env baseUrl (Some origin)
          | None => None
          end in
        match url with
        | None => Invalid (newError (js "baseUrl must be a valid URL"))
        | Some protocol =>
            if negb (jsstring_eqb protocol (js "http:"))
               && negb (jsstring_eqb protocol (js "https:")) then
              Invalid (newError (js "baseUrl must use http: or https: protocol"))
            else
              match queryParamsObject with
              | JNull | JUndefined =>
                  Invalid (newTypeError (js "queryParamsObject must be an object"))
              | JObject params => validateKeys params (keys params)
              | _ =>
                  (* typeof is not 'object', or Array.isArray *)
                  Invalid (newTypeError (js "queryParamsObject must be a plain object"))
              end
        end
  | _ => Invalid (newTypeError (js "baseUrl must be a string"))
  end.

Definition generateUrl (env : Env) (baseUrl queryParamsObject : JsValue)
  : Completion jsstring :=
  match validateInputs env baseUrl queryParamsObject with
  | Invalid error => Throw error
  | Valid =>
      match baseUrl, queryParamsObject with
      | JString baseUrl, JObject params =>
          let keys := keys params in
          if Nat.eqb (List.length keys) 0 then Normal baseUrl
          else
            let firstSeparator :=
              if includes baseUrl (js "?") then js "&" else js "?" in
            queryString <-
              reduce (fun acc key index =>
                        encodedKey <- encodeURIComponent (JString key) ;;
                        encodedValue <- encodeURIComponent (get params key) ;;
                        let separator :=
                          if Nat.eqb index 0 then firstSeparator else js "&" in
                        Normal (acc ++ separator ++ encodedKey ++ js "=" ++ encodedValue))
                     keys O [] ;;
            Normal (baseUrl ++ queryString)
      | _, _ => Throw notValidated
      end
  end.

Definition asyncScriptLoader (env : Env) (baseUrl queryParamObject : JsValue)
    (d : Document) : Completion LoaderResult * Document :=
  match window_location_origin env with
  | None =>
      (Normal (RejectedPromise
         (newError (js "asyncScriptLoader requires a browser environment"))), d)
  | Some _ =>
      match validateInputs env baseUrl queryParamObject with
      | Invalid error => (Normal (RejectedPromise error), d)
      | Valid =>
          let timeoutDuration := 2000 in
          match generateUrl env baseUrl queryParamObject with
          | Throw e => (Throw e, d)
          | Normal constructedUrl =>
              let (scriptElement, d) := createElement d in
              let d := set_src scriptElement constructedUrl d in
              let d := set_async scriptElement true d in
              match getElementsByTagName_head_0 d with
              | None =>
                  (Normal (RejectedPromise
                     (newError (js "No <head> element found in document"))), d)
              | Some headElement =>
                  let d := insertAdjacentElement_beforeend headElement scriptElement d in
                  (Normal (Racing (newRace scriptElement constructedUrl timeoutDuration)), d)
              end
          end
      end
  end.

End Strict.

(* ===================================================================== *)
(** ** src/unnamed/part_000 *)
(* ===================================================================== *)

Module Loose.

Definition generateUrl (baseUrl queryParamsObject : JsValue) : Completion jsstring :=
  match baseUrl with
  | JString baseUrl =>
      if jsstring_eqb (trim baseUrl) [] then
        Throw (newError (js "baseUrl cannot be empty"))
      else
        match queryParamsObject with
        | JNull | JUndefined =>
            Throw (newTypeError (js "queryParamsObject must be an object"))
        | JObject params =>
            match firstNonString params (keys params) with
            | Some key =>
                Throw (newTypeError
                  (js "queryParamsObject value for key " ++ quote ++ key ++ quote
                   ++ js " must be a string"))
            | None =>
                let keys := keys params in
                if Nat.eqb (List.length keys) 0 then Normal baseUrl
                else
                  let firstSeparator :=
                    if includes baseUrl (js "?") then js "&" else js "?" in
                  queryString <-
                    reduce (fun acc key index =>
                              encodedKey <- encodeURIComponent (JString key) ;;
                              encodedValue <- encodeURIComponent (get params key) ;;
                              let separator :=
                                if Nat.eqb index 0 then firstSeparator else js "&" in
                              Normal (acc ++ separator ++ encodedKey ++ js "="
                                      ++ encodedValue))
                           keys O [] ;;
                  Normal (baseUrl ++ queryString)
            end
        | _ =>
            Throw (newTypeError (js "queryParamsObject must be a plain object"))
        end
  | _ => Throw (newTypeError (js "baseUrl must be a string"))
  end.

Definition asyncScriptLoader (env : Env) (baseUrl queryParamObject : JsValue)
    (d : Document) : Completion LoaderResult * Document :=
  match baseUrl with
  | JString baseUrlString =>
      if jsstring_eqb (trim baseUrlString) [] then
        (Normal (RejectedPromise (newError (js "baseUrl cannot be empty"))), d)
      else if (startsWith baseUrlString (js "http")
               || startsWith baseUrlString (js "https"))
              && match URL_protocol env baseUrlString None with
                 | None => true
                 | Some _ => false
                 end then
        (Normal (RejectedPromise (newError (js "baseUrl must be a valid URL"))), d)
      else
        match queryParamObject with
        | JNull | JUndefined =>
            (Normal (RejectedPromise
               (newTypeError (js "queryParamObject must be an object"))), d)
        | JObject params =>
            match firstNonString params (keys params) with
            | Some key =>
                (Normal (RejectedPromise
                   (newTypeError
                      (js "queryParamObject value for key " ++ quote ++ key ++ quote
                       ++ js " must be a string"))), d)
            | None =>
                let timeoutDuration := 2000 in
                match generateUrl baseUrl queryParamObject with
                | Throw e => (Throw e, d)
                | Normal constructedUrl =>
                    match window_location_origin env with
                    | None =>
                        (* no [document] to call createElement on *)
                        (Throw (mkError ReferenceErrorC (js "document is not defined")), d)
                    | Some _ =>
                        let (scriptElement, d) := createElement d in
                        let d := set_src scriptElement constructedUrl d in
                        let d := set_async scriptElement true d in
                        match getElementsByTagName_head_0 d with
                        | None =>
                            (Normal (RejectedPromise
                               (newError (js "No <head> element found in document"))), d)
                        | Some headElement =>
                            let d := insertAdjacentElement_beforeend headElement
                                       scriptElement d in
                            (Normal (Racing (newRace scriptElement constructedUrl
                                               timeoutDuration)), d)
                        end
                    end
                end
            end
        | _ =>
            (Normal (RejectedPromise
               (newTypeError (js "queryParamObject must be a plain object"))), d)
        end
  | _ => (Normal (RejectedPromise (newTypeError (js "baseUrl must be a string"))), d)
  end.

End Loose.

(* ===================================================================== *)
(** ** Both versions side by side *)
(* ===================================================================== *)

Inductive Variant := StrictV | LooseV.

Definition generateUrlOf (v : Variant) (env : Env) (baseUrl params : JsValue)
  : Completion jsstring :=
  match v with
  | StrictV => Strict.generateUrl env baseUrl params
  | LooseV => Loose.generateUrl baseUrl params
  end.

Definition asyncScriptLoaderOf (v : Variant) (env : Env) (baseUrl params : JsValue)
    (d : Document) : Completion LoaderResult * Document :=
  match v with
  | StrictV => Strict.asyncScriptLoader env baseUrl params d
  | LooseV => Loose.asyncScriptLoader env baseUrl params d
  end.

(** [Object.entries(o)]: each key, in iteration order, with what [o[key]]
    reads. *)
Definition entries (props : list (jsstring * JsValue)) : list (jsstring * JsValue) :=
  List.map (fun key => (key, get props key)) (keys props).

(* ===================================================================== *)
(** ** Decoding, for the round-trip property *)
(* ===================================================================== *)

(** The decoding side is not part of the repository; it is the standard
    inverse, [decodeURIComponent], applied to the pieces of the query
    string.  A string is first cut into literal code units and escaped
    octets, then the octets are read as UTF-8. *)

Definition hexValue (c : Z) : option Z :=
  if isAsciiDigit c then Some (c - 48)
  else if (65 <=? c) && (c <=? 70) then Some (c - 55)
  else if (97 <=? c) && (c <=? 102) then Some (c - 87)
  else None.

Inductive Item :=
| Literal (c : Z)
| Octet (b : Z).

Fixpoint unescapeOctets (s : jsstring) : option (list Item) :=
  match s with
  | [] => Some []
  | c :: rest =>
      if c =? 37 then
        match rest with
        | h :: l :: rest' =>
            match hexValue h, hexValue l with
            | Some a, Some b =>
                option_map (cons (Octet (16 * a + b))) (unescapeOctets rest')
            | _, _ => None
            end
        | _ => None
        end
      else option_map (cons (Literal c)) (unescapeOctets rest)
  end.

Definition UTF16EncodeCodePoint (cp : Z) : jsstring :=
  if cp <=? 65535 then [cp]
  else [(cp - 65536) / 1024 + 55296; (cp - 65536) mod 1024 + 56320].

Definition isContinuation (b : Z) : bool := (128 <=? b) && (b <=? 191).

Fixpoint utf8Items (items : list Item) : option jsstring :=
  match items with
  | [] => Some []
  | Literal c :: rest => option_map (cons c) (utf8Items rest)
  | Octet b :: rest =>
      if b <? 128 then option_map (cons b) (utf8Items rest)
      else if b <? 192 then None
      else if b <? 224 then
        match rest with
        | Octet b1 :: rest' =>
            let cp := (b - 192) * 64 + (b1 - 128) in
            if isContinuation b1 && (128 <=? cp) then
              option_map (app (UTF16EncodeCodePoint cp)) (utf8Items rest')
            else None
        | _ => None
        end
      else if b <? 240 then
        match rest with
        | Octet b1 :: Octet b2 :: rest' =>
            let cp := (b - 224) * 4096 + (b1 - 128) * 64 + (b2 - 128) in
            if isContinuation b1 && isContinuation b2 && (2048 <=? cp)
               && negb ((55296 <=? cp) && (cp <=? 57343)) then
              option_map (app (UTF16EncodeCodePoint cp)) (utf8Items rest')
            else None
        | _ => None
        end
      else if b <? 248 then
        match rest with
        | Octet b1 :: Octet b2 :: Octet b3 :: rest' =>
            let cp := (b - 240) * 262144 + (b1 - 128) * 4096 + (b2 - 128) * 64
                      + (b3 - 128) in
            if isContinuation b1 && isContinuation b2 && isContinuation b3
               && (65536 <=? cp) && (cp <=? 1114111) then
              option_map (app (UTF16EncodeCodePoint cp)) (utf8Items rest')
            else None
        | _ => None
        end
      else None
  end.

Definition decodeURIComponent (s : jsstring) : Completion jsstring :=
  match unescapeOctets s with
  | Some items =>
      match utf8Items items with
      | Some r => Normal r
      | None => Throw URIError_malformed
      end
  | None => Throw URIError_malformed
  end.

(** The pieces of [s] between occurrences of [sep]. *)
Fixpoint splitOn (sep : Z) (s : jsstring) : list jsstring :=
  match s with
  | [] => [[]]
  | c :: rest =>
      if c =? sep then [] :: splitOn sep rest
      else
        match splitOn sep rest with
        | piece :: pieces => (c :: piece) :: pieces
        | [] => [[c]]
        end
  end.

(** [s] cut at its first [sep]. *)
Fixpoint cutAt (sep : Z) (s : jsstring) : option (jsstring * jsstring) :=
  match s with
  | [] => None
  | c :: rest =>
      if c =? sep then Some ([], rest)
      else
        match cutAt sep rest with
        | Some (a, b) => Some (c :: a, b)
        | None => None
        end
  end.

Definition decodePair (piece : jsstring) : option (jsstring * jsstring) :=
  match cutAt 61 piece with
  | Some (k, v) =>
      match decodeURIComponent k, decodeURIComponent v with
      | Normal k', Normal v' => Some (k', v')
      | _, _ => None
      end
  | None => None
  end.

Fixpoint decodePairs (pieces : list jsstring) : option (list (jsstring * jsstring)) :=
  match pieces with
  | [] => Some []
  | piece :: rest =>
      match decodePair piece, decodePairs rest with
      | Some kv, Some kvs => Some (kv :: kvs)
      | _, _ => None
      end
  end.

(** Percent-decoding of a query string as the builder appends it: a leading
    [?] or [&], then [key=value] pieces separated by [&]. *)
Definition decodeQueryString (q : jsstring) : option (list (jsstring * jsstring)) :=
  match q with
  | [] => Some []
  | sep :: body =>
      if (sep =? 63) || (sep =? 38) then decodePairs (splitOn 38 body) else None
  end.

(** A string of 16-bit code units in which every surrogate is paired
    ([String.prototype.isWellFormed]). *)
Fixpoint isWellFormed (s : jsstring) : bool :=
  match s with
  | [] => true
  | c :: rest =>
      if isLeadingSurrogate c then
        match rest with
        | d :: rest' => isTrailingSurrogate d && isWellFormed rest'
        | [] => false
        end
      else
        negb (isTrailingSurrogate c) && (0 <=? c) && (c <? 65536) && isWellFormed rest
  end.

(** ["k=v"] pieces joined the way the reduce callback chooses separators. *)
Definition joinPairs (firstSeparator : jsstring) (pairs : list jsstring) : jsstring :=
  match pairs with
  | [] => []
  | p :: rest => firstSeparator ++ p ++ List.flat_map (fun q => js "&" ++ q) rest
  end.

(** The encoded [key=value] piece of every key, in order. *)
Fixpoint encodePairs (params : list (jsstring * JsValue)) (ks : list jsstring)
  : Completion (list jsstring) :=
  match ks with
  | [] => Normal []
  | key :: rest =>
      encodedKey <- encodeURIComponent (JString key) ;;
      encodedValue <- encodeURIComponent (get params key) ;;
      pairs <- encodePairs params rest ;;
      Normal ((encodedKey ++ js "=" ++ encodedValue) :: pairs)
  end.

(* ===================================================================== *)
(** ** Concrete environments and pages *)
(* ===================================================================== *)

Definition toAsciiLower (c : Z) : Z :=
  if (65 <=? c) && (c <=? 90) then c + 32 else c.

(** Scheme state of the URL parser: letters, digits, [+], [-], [.] up to the
    first [:]. *)
Fixpoint schemeState (s buffer : jsstring) : option jsstring :=
  match s with
  | [] => None
  | c :: rest =>
      if c =? 58 then Some (buffer ++ [58])
      else if isAsciiAlpha c || isAsciiDigit c || (c =? 43) || (c =? 45) || (c =? 46)
      then schemeState rest (buffer ++ [toAsciiLower c])
      else None
  end.

Definition schemeOf (s : jsstring) : option jsstring :=
  match s with
  | c :: rest => if isAsciiAlpha c then schemeState rest [toAsciiLower c] else None
  | [] => None
  end.

(** A stand-in for the platform's URL parser, for concrete runs only: it
    reads the scheme as the URL standard does and accepts whatever follows;
    an input without a scheme takes the base's, and a base without one makes
    the constructor throw. *)
Definition sampleURL (input : jsstring) (base : option jsstring) : option jsstring :=
  match base with
  | Some b =>
      match schemeOf b with
      | None => None
      | Some baseProtocol =>
          match schemeOf input with
          | Some protocol => Some protocol
          | None => Some baseProtocol
          end
      end
  | None => schemeOf input
  end.

(** A page served from https://example.com. *)
Definition browser : Env := mkEnv (Some (js "https://example.com")) sampleURL.

(** No [window], no [document]. *)
Definition headless : Env := mkEnv None sampleURL.

(** A document whose single head has two children already. *)
Definition page : Document := mkDocument [] [[DocNode 0; DocNode 1]].

(** A document without any head element. *)
Definition noHeadPage : Document := mkDocument [] [].

(* ===================================================================== *)
(** ** Predicates used in the statements *)
(* ===================================================================== *)

(** The validation in front of each builder lets the two arguments
    through. *)
Definition accepts (v : Variant) (env : Env) (baseUrl params : JsValue) : bool :=
  match v with
  | StrictV => valid (Strict.validateInputs env baseUrl params)
  | LooseV =>
      match baseUrl, params with
      | JString b, JObject props =>
          negb (jsstring_eqb (trim b) [])
          && match firstNonString props (keys props) with
             | None => true
             | Some _ => false
             end
      | _, _ => false
      end
  end.

(** Every key and every value is well-formed UTF-16. *)
Definition wellFormedParams (props : list (jsstring * JsValue)) : bool :=
  List.forallb (fun key => isWellFormed key && isWellFormed (ToString (get props key)))
    (keys props).

(** What is left of both builders once validation has passed. *)
Definition appendQuery (baseUrl : jsstring) (params : list (jsstring * JsValue))
  : Completion jsstring :=
  match params with
  | [] => Normal baseUrl
  | _ :: _ =>
      pairs <- encodePairs params (keys params) ;;
      Normal (baseUrl
              ++ joinPairs (if includes baseUrl (js "?") then js "&" else js "?") pairs)
  end.

(** The callback both builders hand to [reduce]. *)
Definition queryCallback (params : list (jsstring * JsValue)) (firstSeparator : jsstring)
  : jsstring -> jsstring -> nat -> Completion jsstring :=
  fun acc key index =>
    encodedKey <- encodeURIComponent (JString key) ;;
    encodedValue <- encodeURIComponent (get params key) ;;
    let separator := if Nat.eqb index 0 then firstSeparator else js "&" in
    Normal (acc ++ separator ++ encodedKey ++ js "=" ++ encodedValue).


(** A base URL the validation of a version lets through. *)
Definition acceptableBaseUrl (v : Variant) (env : Env) (b : jsstring) : Prop :=
  trim b <> [] /\
  match v with
  | StrictV =>
      exists origin protocol,
        window_location_origin env = Some origin /\
        URL_protocol env b (Some origin) = Some protocol /\
        (protocol = js "http:" \/ protocol = js "https:")
  | LooseV =>
      startsWith b (js "http") || startsWith b (js "https") = true ->
      URL_protocol env b None <> None
  end.

(** A key the validation loop of a version steps over. *)
Definition keyPasses (v : Variant) (props : list (jsstring * JsValue)) (key : jsstring)
  : Prop :=
  (v = StrictV -> trim key <> []) /\ exists s, get props key = JString s.




(** A page whose origin is opaque, as in a sandboxed frame. *)
Definition sandboxed : Env := mkEnv (Some (js "null")) sampleURL.

(** A page served from a local development server. *)
Definition devServer : Env := mkEnv (Some (js "http://localhost:8080")) sampleURL.

(** Every code unit is a 16-bit value, as in any JavaScript string. *)
Definition is16Bit (s : jsstring) : bool :=
  List.forallb (fun c => (0 <=? c) && (c <? 65536)) s.

(** Every key and every value is a string of 16-bit code units. *)
Definition params16Bit (props : list (jsstring * JsValue)) : bool :=
  List.forallb (fun key => is16Bit key && is16Bit (ToString (get props key)))
    (keys props).

(** Every key and every value holds unescaped characters only. *)
Definition paramsUnescaped (props : list (jsstring * JsValue)) : bool :=
  List.forallb (fun key => List.forallb isUnescaped key
                           && List.forallb isUnescaped (ToString (get props key)))
    (keys props).

(** Every script handle in the tree names an element that has been created:
    the next handle [createElement] gives out is not in the tree yet. *)
Definition handlesBound (d : Document) : bool :=
  List.forallb
    (List.forallb (fun n => match n with
                            | ScriptNode h => Nat.ltb h (List.length (created d))
                            | DocNode _ => true
                            end))
    (heads d).

(** The number of heads that hold a node; in a tree it is at most one. *)
Definition headsHolding (n : Node) (hs : list (list Node)) : nat :=
  List.length (List.filter (List.existsb (Node_eqb n)) hs).

(* ===================================================================== *)
(** ** Strings and values *)
(* ===================================================================== *)

Lemma jsstring_eqb_eq (a b : jsstring) : jsstring_eqb a b = true <-> a = b.
Proof.
  revert b; induction a as [|c a IH]; intros [|d b]; simpl; split;
    try congruence; try reflexivity.
  - intros H. apply andb_true_iff in H as [Hc Ha].
    apply Z.eqb_eq in Hc. apply IH in Ha. congruence.
  - intros H. injection H as -> ->.
    rewrite Z.eqb_refl. simpl. now apply IH.
Qed.

Lemma jsstring_eqb_refl (a : jsstring) : jsstring_eqb a a = true.
Proof. now apply jsstring_eqb_eq. Qed.

Lemma jsstring_eqb_neq (a b : jsstring) : jsstring_eqb a b = false <-> a <> b.
Proof.
  split.
  - intros H E. apply jsstring_eqb_eq in E. congruence.
  - intros H. destruct (jsstring_eqb a b) eqn:E; [|reflexivity].
    apply jsstring_eqb_eq in E. contradiction.
Qed.

(** [typeof v === 'string'] holds of the strings only. *)
Lemma typeof_string (v : JsValue) :
  typeof v = js "string" <-> exists s, v = JString s.
Proof.
  split.
  - destruct v; simpl; try discriminate. eauto.
  - intros [s ->]. reflexivity.
Qed.

(** The plain objects are the non-null values of type 'object' that are not
    arrays. *)
Lemma typeof_plain_object (v : JsValue) :
  (v <> JNull /\ typeof v = js "object" /\ isArray v = false)
  <-> exists props, v = JObject props.
Proof.
  split.
  - intros (Hn & Ht & Ha). destruct v; simpl in *; try discriminate;
      try congruence. eauto.
  - intros [props ->]. repeat split; congruence.
Qed.

(** [s.includes(c)] for a single code unit is membership. *)
Lemma includes_unit (s : jsstring) (c : Z) : includes s [c] = true <-> In c s.
Proof.
  induction s as [|d s IH]; simpl.
  - split; [discriminate | tauto].
  - rewrite orb_true_iff, IH, andb_true_iff, Z.eqb_eq.
    split.
    + intros [[<- _] | H]; auto.
    + intros [<- | H]; auto. left. split; [reflexivity|]. now destruct s.
Qed.

Lemma includes_unit_false (s : jsstring) (c : Z) : includes s [c] = false <-> ~ In c s.
Proof.
  rewrite <- includes_unit. destruct (includes s [c]); split; congruence.
Qed.

(* ===================================================================== *)
(** ** Validation *)
(* ===================================================================== *)

(** Where the key loop of the strict validator passes, no value is a
    non-string. *)
Lemma validateKeys_firstNonString params ks :
  Strict.validateKeys params ks = Valid -> firstNonString params ks = None.
Proof.
  induction ks as [|key ks IH]; simpl; [reflexivity|].
  destruct (jsstring_eqb (trim key) []); [discriminate|].
  destruct (get params key); try discriminate. exact IH.
Qed.

(** What a passed strict validation says about its arguments. *)
Lemma validateInputs_Valid env baseUrl params :
  Strict.validateInputs env baseUrl params = Valid ->
  exists b props origin protocol,
    baseUrl = JString b /\ params = JObject props /\
    trim b <> [] /\
    window_location_origin env = Some origin /\
    URL_protocol env b (Some origin) = Some protocol /\
    (protocol = js "http:" \/ protocol = js "https:") /\
    Strict.validateKeys props (keys props) = Valid.
Proof.
  unfold Strict.validateInputs.
  destruct baseUrl as [| | | |b| |]; try discriminate.
  destruct (jsstring_eqb (trim b) []) eqn:Hb; [discriminate|].
  destruct (window_location_origin env) as [origin|]; [|discriminate].
  destruct (URL_protocol env b (Some origin)) as [protocol|] eqn:Hu; [|discriminate].
  destruct (negb (jsstring_eqb protocol (js "http:"))
            && negb (jsstring_eqb protocol (js "https:"))) eqn:Hp; [discriminate|].
  destruct params as [| | | | | |props]; try discriminate.
  intros Hk. exists b, props, origin, protocol.
  repeat split; auto.
  - now apply jsstring_eqb_neq.
  - apply andb_false_iff in Hp as [Hp|Hp]; apply negb_false_iff, jsstring_eqb_eq in Hp; auto.
Qed.

(** What acceptance says in either version. *)
Lemma accepts_inv v env baseUrl params :
  accepts v env baseUrl params = true ->
  exists b props,
    baseUrl = JString b /\ params = JObject props /\ trim b <> [] /\
    firstNonString props (keys props) = None.
Proof.
  destruct v; unfold accepts.
  - destruct (Strict.validateInputs env baseUrl params) eqn:Hv; [|discriminate].
    intros _. apply validateInputs_Valid in Hv
      as (b & props & origin & protocol & -> & -> & Hb & _ & _ & _ & Hk).
    exists b, props. repeat split; auto. now apply validateKeys_firstNonString.
  - destruct baseUrl as [| | | |b| |]; try discriminate.
    destruct params as [| | | | | |props]; try discriminate.
    intros H. apply andb_true_iff in H as [Hb Hk].
    exists b, props. repeat split; auto.
    + apply jsstring_eqb_neq. now apply negb_true_iff.
    + destruct (firstNonString props (keys props)); [discriminate|reflexivity].
Qed.

(* ===================================================================== *)
(** ** The URL builder *)
(* ===================================================================== *)

Lemma reduce_queryCallback_rest params firstSeparator ks index acc :
  reduce (queryCallback params firstSeparator) ks (S index) acc =
  (pairs <- encodePairs params ks ;;
   Normal (acc ++ List.flat_map (fun q => js "&" ++ q) pairs)).
Proof.
  revert index acc. induction ks as [|key ks IH]; intros index acc; simpl.
  - now rewrite app_nil_r.
  - unfold queryCallback at 1.
    destruct (encodeURIComponent (JString key)) as [ek|]; simpl; [|reflexivity].
    destruct (encodeURIComponent (get params key)) as [ev|]; simpl; [|reflexivity].
    rewrite IH. destruct (encodePairs params ks) as [pairs|]; simpl; [|reflexivity].
    rewrite <- app_assoc. reflexivity.
Qed.

Lemma reduce_queryCallback params firstSeparator ks :
  ks <> [] ->
  reduce (queryCallback params firstSeparator) ks O [] =
  (pairs <- encodePairs params ks ;; Normal (joinPairs firstSeparator pairs)).
Proof.
  destruct ks as [|key ks]; [congruence|]. intros _. simpl.
  unfold queryCallback at 1.
  destruct (encodeURIComponent (JString key)) as [ek|]; simpl; [|reflexivity].
  destruct (encodeURIComponent (get params key)) as [ev|]; simpl; [|reflexivity].
  rewrite reduce_queryCallback_rest.
  destruct (encodePairs params ks) as [pairs|]; simpl; [|reflexivity].
  now rewrite <- !app_assoc.
Qed.

Lemma keys_nil props : keys props = [] <-> props = [].
Proof. destruct props; simpl; split; congruence. Qed.

(** Past its validation, each builder computes [appendQuery]. *)
Lemma generateUrlOf_accepted v env b props :
  accepts v env (JString b) (JObject props) = true ->
  generateUrlOf v env (JString b) (JObject props) = appendQuery b props.
Proof.
  intros Ha.
  assert (Hshape :
    (if Nat.eqb (List.length (keys props)) 0 then Normal b
     else
       queryString <-
         reduce (queryCallback props (if includes b (js "?") then js "&" else js "?"))
           (keys props) O [] ;;
       Normal (b ++ queryString)) = appendQuery b props).
  { destruct props as [|kv props]; [reflexivity|].
    cbn [keys List.map List.length Nat.eqb appendQuery].
    rewrite reduce_queryCallback by discriminate.
    cbn [keys List.map].
    destruct (encodePairs (kv :: props) (fst kv :: List.map fst props)); reflexivity. }
  destruct v; cbn [accepts] in Ha; unfold generateUrlOf.
  - unfold Strict.generateUrl.
    destruct (Strict.validateInputs env (JString b) (JObject props)); [|discriminate].
    exact Hshape.
  - apply andb_true_iff in Ha as [Hb Hk].
    apply negb_true_iff in Hb.
    unfold Loose.generateUrl. rewrite Hb.
    destruct (firstNonString props (keys props)); [discriminate|].
    exact Hshape.
Qed.

(** A builder that returns has accepted its arguments. *)
Lemma generateUrlOf_Normal v env baseUrl params url :
  generateUrlOf v env baseUrl params = Normal url ->
  accepts v env baseUrl params = true.
Proof.
  destruct v; unfold generateUrlOf, accepts.
  - unfold Strict.generateUrl.
    destruct (Strict.validateInputs env baseUrl params); [reflexivity|discriminate].
  - unfold Loose.generateUrl.
    destruct baseUrl as [| | | |b| |]; try discriminate.
    destruct (jsstring_eqb (trim b) []); [discriminate|].
    destruct params as [| | | | | |props]; try discriminate.
    destruct (firstNonString props (keys props)); [discriminate|reflexivity].
Qed.

Lemma generateUrlOf_Normal_inv v env baseUrl params url :
  generateUrlOf v env baseUrl params = Normal url ->
  exists b props,
    baseUrl = JString b /\ params = JObject props /\
    accepts v env (JString b) (JObject props) = true /\
    appendQuery b props = Normal url.
Proof.
  intros H. pose proof (generateUrlOf_Normal _ _ _ _ _ H) as Ha.
  destruct (accepts_inv _ _ _ _ Ha) as (b & props & -> & -> & _ & _).
  exists b, props. repeat split; auto.
  now rewrite <- (generateUrlOf_accepted v env).
Qed.

(* ===================================================================== *)
(** ** Encoding and decoding *)
(* ===================================================================== *)

Ltac decide_cmps :=
  repeat match goal with
  | |- context [?a <? ?b] =>
      first [ rewrite (proj2 (Z.ltb_lt a b)) by (Z.div_mod_to_equations; lia)
            | rewrite (proj2 (Z.ltb_ge a b)) by (Z.div_mod_to_equations; lia) ]
  | |- context [?a <=? ?b] =>
      first [ rewrite (proj2 (Z.leb_le a b)) by (Z.div_mod_to_equations; lia)
            | rewrite (proj2 (Z.leb_gt a b)) by (Z.div_mod_to_equations; lia) ]
  | |- context [?a =? ?b] =>
      first [ rewrite (proj2 (Z.eqb_eq a b)) by (Z.div_mod_to_equations; lia)
            | rewrite (proj2 (Z.eqb_neq a b)) by (Z.div_mod_to_equations; lia) ]
  end.

Lemma hexValue_hexDigit n : 0 <= n < 16 -> hexValue (hexDigit n) = Some n.
Proof.
  intros Hn. unfold hexDigit, hexValue, isAsciiDigit.
  destruct (Z.ltb_spec n 10); decide_cmps; cbn [andb orb]; f_equal; lia.
Qed.

Lemma unescapeOctets_percentOctet b rest :
  0 <= b < 256 ->
  unescapeOctets (percentOctet b ++ rest) =
  option_map (cons (Octet b)) (unescapeOctets rest).
Proof.
  intros Hb. unfold percentOctet. cbn [app unescapeOctets].
  rewrite Z.eqb_refl.
  rewrite !hexValue_hexDigit by (Z.div_mod_to_equations; lia).
  replace (16 * (b / 16) + b mod 16) with b by (Z.div_mod_to_equations; lia).
  reflexivity.
Qed.

Lemma utf8Encode_octets cp :
  0 <= cp < 1114112 -> Forall (fun b => 0 <= b < 256) (utf8Encode cp).
Proof.
  intros Hcp. unfold utf8Encode.
  destruct (Z.ltb_spec cp 128); [|destruct (Z.ltb_spec cp 2048); [|destruct (Z.ltb_spec cp 65536)]];
    repeat constructor; Z.div_mod_to_equations; lia.
Qed.

Lemma utf8Items_utf8Encode cp items :
  0 <= cp < 1114112 -> ~ (55296 <= cp <= 57343) ->
  utf8Items (List.map Octet (utf8Encode cp) ++ items) =
  option_map (app (UTF16EncodeCodePoint cp)) (utf8Items items).
Proof.
  intros Hcp Hs. unfold utf8Encode.
  destruct (Z.ltb_spec cp 128); [|destruct (Z.ltb_spec cp 2048); [|destruct (Z.ltb_spec cp 65536)]];
    cbn [List.map app utf8Items]; unfold isContinuation.
  - decide_cmps. unfold UTF16EncodeCodePoint. decide_cmps. reflexivity.
  - decide_cmps. cbn [andb].
    replace ((192 + cp / 64 - 192) * 64 + (128 + cp mod 64 - 128)) with cp
      by (Z.div_mod_to_equations; lia).
    decide_cmps. reflexivity.
  - decide_cmps. cbn [andb].
    replace ((224 + cp / 4096 - 224) * 4096 + (128 + (cp / 64) mod 64 - 128) * 64
             + (128 + cp mod 64 - 128)) with cp
      by (Z.div_mod_to_equations; lia).
    decide_cmps. cbn [andb negb].
    destruct (Z.leb_spec 55296 cp), (Z.leb_spec cp 57343); try lia; reflexivity.
  - decide_cmps. cbn [andb].
    replace ((240 + cp / 262144 - 240) * 262144 + (128 + (cp / 4096) mod 64 - 128) * 4096
             + (128 + (cp / 64) mod 64 - 128) * 64 + (128 + cp mod 64 - 128)) with cp
      by (Z.div_mod_to_equations; lia).
    decide_cmps. reflexivity.
Qed.

Lemma wellFormed_ind (P : jsstring -> Prop) :
  P [] ->
  (forall c rest,
      isLeadingSurrogate c = false -> isTrailingSurrogate c = false ->
      0 <= c < 65536 -> isWellFormed rest = true -> P rest -> P (c :: rest)) ->
  (forall c d rest,
      isLeadingSurrogate c = true -> isTrailingSurrogate d = true ->
      isWellFormed rest = true -> P rest -> P (c :: d :: rest)) ->
  forall s, isWellFormed s = true -> P s.
Proof.
  intros Hnil Hunit Hpair.
  fix IH 1. intros [|c rest]; [intros _; exact Hnil|].
  cbn [isWellFormed].
  destruct (isLeadingSurrogate c) eqn:Hl.
  - destruct rest as [|d rest']; [discriminate|].
    intros H. apply andb_true_iff in H as [Hd Hr].
    apply Hpair; auto.
  - intros H. apply andb_true_iff in H as [H Hr].
    apply andb_true_iff in H as [H H3]. apply andb_true_iff in H as [H1 H2].
    apply Hunit; auto.
    + now apply negb_true_iff.
    + apply Z.leb_le in H2. apply Z.ltb_lt in H3. lia.
Qed.

Lemma hexDigit_unescaped n : 0 <= n < 16 -> isUnescaped (hexDigit n) = true.
Proof.
  intros Hn. unfold hexDigit, isUnescaped, isAsciiAlpha, isAsciiDigit.
  destruct (Z.ltb_spec n 10); decide_cmps; reflexivity.
Qed.

Lemma percentOctets_units bs :
  Forall (fun b => 0 <= b < 256) bs ->
  Forall (fun c => isUnescaped c = true \/ c = 37) (percentOctets bs).
Proof.
  induction 1 as [|b bs Hb _ IH]; [constructor|].
  unfold percentOctets in *. cbn [List.flat_map percentOctet app].
  constructor; [now right|].
  constructor; [left; apply hexDigit_unescaped; Z.div_mod_to_equations; lia|].
  constructor; [left; apply hexDigit_unescaped; Z.div_mod_to_equations; lia|].
  exact IH.
Qed.

Lemma unescapeOctets_percentOctets bs rest :
  Forall (fun b => 0 <= b < 256) bs ->
  unescapeOctets (percentOctets bs ++ rest) =
  option_map (app (List.map Octet bs)) (unescapeOctets rest).
Proof.
  induction 1 as [|b bs Hb _ IH].
  - cbn. now destruct (unescapeOctets rest).
  - unfold percentOctets in *. cbn [List.flat_map List.map].
    rewrite <- app_assoc, unescapeOctets_percentOctet, IH by assumption.
    now destruct (unescapeOctets rest).
Qed.

Lemma surrogate_pair c d :
  isLeadingSurrogate c = true -> isTrailingSurrogate d = true ->
  65536 <= UTF16SurrogatePairToCodePoint c d < 1114112 /\
  UTF16EncodeCodePoint (UTF16SurrogatePairToCodePoint c d) = [c; d].
Proof.
  unfold isLeadingSurrogate, isTrailingSurrogate, UTF16SurrogatePairToCodePoint,
    UTF16EncodeCodePoint.
  intros Hc Hd.
  apply andb_true_iff in Hc as [Hc1 Hc2]. apply andb_true_iff in Hd as [Hd1 Hd2].
  apply Z.leb_le in Hc1, Hc2, Hd1, Hd2.
  split; [lia|].
  decide_cmps.
  f_equal; [|f_equal]; Z.div_mod_to_equations; lia.
Qed.

(** The unescaped code units are printable ASCII, and none of them is one of
    the characters [%], [&], [+], [=], [?]. *)
Lemma unescaped_ascii c :
  isUnescaped c = true ->
  33 <= c <= 126 /\ c <> 37 /\ c <> 38 /\ c <> 43 /\ c <> 61 /\ c <> 63.
Proof.
  unfold isUnescaped, isAsciiAlpha, isAsciiDigit. intros H.
  repeat (apply orb_true_iff in H as [H|H]);
    repeat (apply andb_true_iff in H as [? H]);
    repeat match goal with
           | H : (_ <=? _) = true |- _ => apply Z.leb_le in H
           | H : (_ =? _) = true |- _ => apply Z.eqb_eq in H
           end; lia.
Qed.

Lemma Encode_roundtrip s :
  isWellFormed s = true ->
  exists r items,
    Encode s = Normal r /\
    Forall (fun c => isUnescaped c = true \/ c = 37) r /\
    unescapeOctets r = Some items /\ utf8Items items = Some s.
Proof.
  revert s. apply wellFormed_ind;
    [|intros c rest Hl Ht Hc Hr IH|intros c d rest Hl Ht Hr IH].
  - exists [], []. repeat split; constructor.
  - destruct IH as (r & items & He & Hu & Hun & Hit).
    cbn [Encode]. rewrite He, Hl, Ht. cbn [bind].
    destruct (isUnescaped c) eqn:Hunesc.
    + exists (c :: r), (Literal c :: items). repeat split; auto.
      * cbn [unescapeOctets].
        destruct (unescaped_ascii c Hunesc) as (_ & Hp & _).
        rewrite (proj2 (Z.eqb_neq c 37)) by assumption. now rewrite Hun.
      * cbn [utf8Items]. now rewrite Hit.
    + assert (Hcp : 0 <= c < 1114112) by lia.
      assert (Hns : ~ (55296 <= c <= 57343)).
      { unfold isLeadingSurrogate, isTrailingSurrogate in Hl, Ht.
        apply andb_false_iff in Hl, Ht.
        rewrite !Z.leb_gt in Hl, Ht. lia. }
      exists (percentOctets (utf8Encode c) ++ r), (List.map Octet (utf8Encode c) ++ items).
      repeat split.
      * apply Forall_app. split; auto.
        apply percentOctets_units, utf8Encode_octets, Hcp.
      * rewrite unescapeOctets_percentOctets by (apply utf8Encode_octets, Hcp).
        now rewrite Hun.
      * rewrite utf8Items_utf8Encode, Hit by assumption.
        unfold UTF16EncodeCodePoint. decide_cmps. reflexivity.
  - destruct IH as (r & items & He & Hu & Hun & Hit).
    destruct (surrogate_pair c d Hl Ht) as [Hcp Henc].
    assert (Hunesc : isUnescaped c = false).
    { destruct (isUnescaped c) eqn:E; [|reflexivity].
      apply unescaped_ascii in E. unfold isLeadingSurrogate in Hl.
      apply andb_true_iff in Hl as [Hl _]. apply Z.leb_le in Hl. lia. }
    cbn [Encode]. rewrite Hunesc, Hl, Ht, He. cbn [bind].
    set (cp := UTF16SurrogatePairToCodePoint c d) in *.
    exists (percentOctets (utf8Encode cp) ++ r), (List.map Octet (utf8Encode cp) ++ items).
    repeat split.
    + apply Forall_app. split; auto.
      apply percentOctets_units, utf8Encode_octets. lia.
    + rewrite unescapeOctets_percentOctets by (apply utf8Encode_octets; lia).
      now rewrite Hun.
    + rewrite utf8Items_utf8Encode, Hit, Henc by lia. reflexivity.
Qed.

Lemma splitOn_no_sep sep p : ~ In sep p -> splitOn sep p = [p].
Proof.
  induction p as [|c p IH]; cbn [splitOn]; [reflexivity|].
  intros H. rewrite (proj2 (Z.eqb_neq c sep)) by (intros ->; apply H; now left).
  rewrite IH; [reflexivity|]. intros Hin. apply H. now right.
Qed.

Lemma splitOn_app sep p t :
  ~ In sep p -> splitOn sep (p ++ sep :: t) = p :: splitOn sep t.
Proof.
  induction p as [|c p IH]; cbn [splitOn app].
  - now rewrite Z.eqb_refl.
  - intros H. rewrite (proj2 (Z.eqb_neq c sep)) by (intros ->; apply H; now left).
    rewrite IH; [reflexivity|]. intros Hin. apply H. now right.
Qed.

Lemma splitOn_join p rest :
  Forall (fun q => ~ In 38 q) (p :: rest) ->
  splitOn 38 (p ++ List.flat_map (fun q => js "&" ++ q) rest) = p :: rest.
Proof.
  revert p. induction rest as [|q rest IH]; intros p H.
  - cbn [List.flat_map]. rewrite app_nil_r. apply splitOn_no_sep.
    now inversion H.
  - cbn [List.flat_map]. change (js "&" ++ q) with (38 :: q).
    inversion H as [|? ? Hp Hrest]; subst.
    change ((38 :: q) ++ List.flat_map (fun q0 => js "&" ++ q0) rest)
      with (38 :: (q ++ List.flat_map (fun q0 => js "&" ++ q0) rest)).
    rewrite splitOn_app by assumption. now rewrite IH.
Qed.

Lemma cutAt_app sep a b : ~ In sep a -> cutAt sep (a ++ sep :: b) = Some (a, b).
Proof.
  induction a as [|c a IH]; cbn [cutAt app].
  - now rewrite Z.eqb_refl.
  - intros H. rewrite (proj2 (Z.eqb_neq c sep)) by (intros ->; apply H; now left).
    rewrite IH; [reflexivity|]. intros Hin. apply H. now right.
Qed.

Lemma encoded_units_avoid r c :
  Forall (fun u => isUnescaped u = true \/ u = 37) r ->
  c = 32 \/ c = 38 \/ c = 43 \/ c = 61 \/ c = 63 -> ~ In c r.
Proof.
  intros Hr Hc Hin. rewrite Forall_forall in Hr. apply Hr in Hin as [Hu| ->]; [|lia].
  apply unescaped_ascii in Hu. lia.
Qed.

Lemma decodeURIComponent_Encode s :
  isWellFormed s = true ->
  exists r, Encode s = Normal r /\
            Forall (fun u => isUnescaped u = true \/ u = 37) r /\
            decodeURIComponent r = Normal s.
Proof.
  intros Hs. destruct (Encode_roundtrip s Hs) as (r & items & He & Hu & Hun & Hit).
  exists r. repeat split; auto. unfold decodeURIComponent. now rewrite Hun, Hit.
Qed.

Lemma firstNonString_None props ks :
  firstNonString props ks = None ->
  Forall (fun key => exists v, get props key = JString v) ks.
Proof.
  induction ks as [|key ks IH]; cbn [firstNonString]; [constructor|].
  destruct (get props key) eqn:Hg; try discriminate.
  intros H. constructor; eauto.
Qed.

Lemma encodePairs_decodePairs props ks :
  Forall (fun key => exists v, get props key = JString v) ks ->
  List.forallb (fun key => isWellFormed key && isWellFormed (ToString (get props key))) ks
    = true ->
  exists pairs,
    encodePairs props ks = Normal pairs /\
    List.length pairs = List.length ks /\
    Forall (fun q => ~ In 32 q /\ ~ In 38 q /\ ~ In 43 q) pairs /\
    decodePairs pairs = Some (List.map (fun key => (key, ToString (get props key))) ks).
Proof.
  induction 1 as [|key ks [v Hv] _ IH]; cbn [List.forallb]; intros Hwf.
  - exists []. repeat split; constructor.
  - apply andb_true_iff in Hwf as [Hkv Hwf].
    apply andb_true_iff in Hkv as [Hk Hval].
    destruct (IH Hwf) as (pairs & He & Hlen & Hsafe & Hd).
    destruct (decodeURIComponent_Encode key Hk) as (ek & Hek & Huk & Hdk).
    destruct (decodeURIComponent_Encode _ Hval) as (ev & Hev & Huv & Hdv).
    exists ((ek ++ js "=" ++ ev) :: pairs).
    cbn [encodePairs]. unfold encodeURIComponent. cbn [ToString].
    rewrite Hek, Hev, He. cbn [bind].
    repeat split.
    + cbn [List.length]. now rewrite Hlen.
    + constructor; [|exact Hsafe].
      change (js "=" ++ ev) with (61 :: ev).
      repeat split; intros Hin; apply in_app_or in Hin as [Hin|[Hin|Hin]];
        try discriminate;
        revert Hin; apply encoded_units_avoid; auto.
    + cbn [decodePairs List.map]. rewrite Hd.
      unfold decodePair. change (js "=" ++ ev) with (61 :: ev).
      rewrite cutAt_app by (apply encoded_units_avoid; auto).
      now rewrite Hdk, Hdv.
Qed.

(* ===================================================================== *)
(** ** Properties of the URL builder *)
(* ===================================================================== *)

Lemma accepts_baseUrl v env b :
  trim b <> [] ->
  (v = StrictV ->
   exists origin protocol,
     window_location_origin env = Some origin /\
     URL_protocol env b (Some origin) = Some protocol /\
     (protocol = js "http:" \/ protocol = js "https:")) ->
  accepts v env (JString b) (JObject []) = true.
Proof.
  intros Hb Hs. apply jsstring_eqb_neq in Hb.
  destruct v; unfold accepts.
  - destruct (Hs eq_refl) as (origin & protocol & Ho & Hu & Hp).
    unfold Strict.validateInputs. rewrite Hb, Ho, Hu.
    destruct Hp as [-> | ->]; reflexivity.
  - now rewrite Hb.
Qed.

(** C5, amended.  For every base URL the validation accepts (non-empty after
    trimming and, in the strict version, resolved by the URL parser to the
    protocol http: or https:), the builder applied to the empty parameter
    mapping returns the base URL exactly, in both versions. *)
Theorem no_params_pass_through v env b :
  trim b <> [] ->
  (v = StrictV ->
   exists origin protocol,
     window_location_origin env = Some origin /\
     URL_protocol env b (Some origin) = Some protocol /\
     (protocol = js "http:" \/ protocol = js "https:")) ->
  generateUrlOf v env (JString b) (JObject []) = Normal b.
Proof.
  intros Hb Hs. rewrite generateUrlOf_accepted by now apply accepts_baseUrl.
  reflexivity.
Qed.

Lemma no_params_pass_through_witness :
  generateUrlOf StrictV browser (JString (js "https://cdn.example.com/widget.js"))
    (JObject []) = Normal (js "https://cdn.example.com/widget.js").
Proof.
  apply (no_params_pass_through StrictV browser).
  - vm_compute. discriminate.
  - intros _. exists (js "https://example.com"), (js "https:").
    repeat split; auto.
Defined.

(** C5 as stated fails: for the empty base URL, and an empty parameter
    mapping, both builders throw instead of returning the base URL. *)
Lemma no_params_pass_through_counterexample :
  generateUrlOf StrictV browser (JString []) (JObject [])
    = Throw (newError (js "baseUrl cannot be empty")) /\
  generateUrlOf LooseV browser (JString []) (JObject [])
    = Throw (newError (js "baseUrl cannot be empty")) /\
  generateUrlOf StrictV browser (JString []) (JObject []) <> Normal [] /\
  generateUrlOf LooseV browser (JString []) (JObject []) <> Normal [].
Proof. repeat split; try reflexivity; discriminate. Qed.

(** C10.  Whenever the strict builder and the loose builder both return on
    the same arguments, they return the same URL. *)
Theorem variants_agree env baseUrl params strictUrl looseUrl :
  Strict.generateUrl env baseUrl params = Normal strictUrl ->
  Loose.generateUrl baseUrl params = Normal looseUrl ->
  strictUrl = looseUrl.
Proof.
  intros Hs Hl.
  apply (generateUrlOf_Normal_inv StrictV env) in Hs
    as (b & props & -> & -> & _ & Hs).
  apply (generateUrlOf_Normal_inv LooseV env) in Hl
    as (b' & props' & Eb & Ep & _ & Hl).
  injection Eb as <-. injection Ep as <-. congruence.
Qed.

Lemma variants_agree_witness :
  exists strictUrl looseUrl,
    Strict.generateUrl browser (JString (js "https://cdn.example.com/widget.js"))
      (JObject [(js "v", JString (js "2")); (js "lang", JString (js "en GB"))])
    = Normal strictUrl /\
    Loose.generateUrl (JString (js "https://cdn.example.com/widget.js"))
      (JObject [(js "v", JString (js "2")); (js "lang", JString (js "en GB"))])
    = Normal looseUrl /\
    strictUrl = looseUrl.
Proof.
  exists (js "https://cdn.example.com/widget.js?v=2&lang=en%20GB"),
         (js "https://cdn.example.com/widget.js?v=2&lang=en%20GB").
  split; [reflexivity|]. split; [reflexivity|].
  apply (variants_agree browser (JString (js "https://cdn.example.com/widget.js"))
           (JObject [(js "v", JString (js "2")); (js "lang", JString (js "en GB"))]));
    reflexivity.
Defined.

(** C9, amended.  The strict builder reads [window.location.origin] while
    validating, and nothing else of its surroundings: in two environments
    with the same origin and the same URL parser it gives the same result on
    equal arguments, and in any two environments in which it returns, it
    returns the same URL.  It has no effect on the document, which it is not
    given. *)
Theorem builder_determinism env1 env2 baseUrl params :
  (window_location_origin env1 = window_location_origin env2 ->
   (forall input base, URL_protocol env1 input base = URL_protocol env2 input base) ->
   Strict.generateUrl env1 baseUrl params = Strict.generateUrl env2 baseUrl params) /\
  (forall url1 url2,
     Strict.generateUrl env1 baseUrl params = Normal url1 ->
     Strict.generateUrl env2 baseUrl params = Normal url2 ->
     url1 = url2).
Proof.
  split.
  - intros Ho Hu. unfold Strict.generateUrl, Strict.validateInputs.
    rewrite Ho. destruct baseUrl; try reflexivity.
    destruct (window_location_origin env2); [rewrite Hu|]; reflexivity.
  - intros url1 url2 H1 H2.
    apply (generateUrlOf_Normal_inv StrictV env1) in H1
      as (b & props & -> & -> & _ & H1).
    apply (generateUrlOf_Normal_inv StrictV env2) in H2
      as (b' & props' & Eb & Ep & _ & H2).
    injection Eb as <-. injection Ep as <-. congruence.
Qed.

Lemma builder_determinism_witness :
  Strict.generateUrl browser (JString (js "/widget.js"))
    (JObject [(js "v", JString (js "2"))])
  = Strict.generateUrl (mkEnv (Some (js "https://example.com")) sampleURL)
      (JString (js "/widget.js")) (JObject [(js "v", JString (js "2"))])
  /\ exists url1 url2,
       Strict.generateUrl browser (JString (js "/widget.js"))
         (JObject [(js "v", JString (js "2"))]) = Normal url1 /\
       Strict.generateUrl devServer (JString (js "/widget.js"))
         (JObject [(js "v", JString (js "2"))]) = Normal url2 /\
       url1 = url2.
Proof.
  split.
  - apply (proj1 (builder_determinism browser
                    (mkEnv (Some (js "https://example.com")) sampleURL) _ _));
      reflexivity.
  - exists (js "/widget.js?v=2"), (js "/widget.js?v=2").
    split; [reflexivity|]. split; [reflexivity|].
    apply (proj2 (builder_determinism browser devServer
                    (JString (js "/widget.js")) (JObject [(js "v", JString (js "2"))])));
      reflexivity.
Defined.

(** C9 as stated fails: on the same arguments the strict builder returns the
    URL on a page served over https, and throws where the origin is opaque or
    where there is no [window] at all. *)
Lemma builder_determinism_counterexample :
  Strict.generateUrl browser (JString (js "https://cdn.example.com/widget.js")) (JObject [])
    = Normal (js "https://cdn.example.com/widget.js") /\
  Strict.generateUrl sandboxed (JString (js "https://cdn.example.com/widget.js")) (JObject [])
    = Throw (newError (js "baseUrl must be a valid URL")) /\
  Strict.generateUrl headless (JString (js "https://cdn.example.com/widget.js")) (JObject [])
    = Throw (newError (js "baseUrl must be a valid URL")) /\
  Strict.generateUrl browser (JString (js "https://cdn.example.com/widget.js")) (JObject [])
    <> Strict.generateUrl headless (JString (js "https://cdn.example.com/widget.js"))
         (JObject []).
Proof. repeat split; try reflexivity; discriminate. Qed.

Lemma encodePairs_Forall2 props ks pairs :
  encodePairs props ks = Normal pairs ->
  Forall2 (fun key pair =>
             exists encodedKey encodedValue,
               encodeURIComponent (JString key) = Normal encodedKey /\
               encodeURIComponent (get props key) = Normal encodedValue /\
               pair = encodedKey ++ js "=" ++ encodedValue)
          ks pairs.
Proof.
  revert pairs. induction ks as [|key ks IH]; cbn [encodePairs]; intros pairs.
  - intros H. injection H as <-. constructor.
  - destruct (encodeURIComponent (JString key)) as [ek|] eqn:Hk; [|discriminate].
    destruct (encodeURIComponent (get props key)) as [ev|] eqn:Hv; [|discriminate].
    destruct (encodePairs props ks) as [rest|]; [|discriminate].
    cbn [bind]. intros H. injection H as <-.
    constructor; [|now apply IH]. exists ek, ev. auto.
Qed.

(** A builder returns on every accepted input whose keys and values are
    well-formed UTF-16. *)
Lemma generateUrlOf_returns v env b props :
  accepts v env (JString b) (JObject props) = true ->
  wellFormedParams props = true ->
  exists url, generateUrlOf v env (JString b) (JObject props) = Normal url.
Proof.
  intros Ha Hwf. rewrite (generateUrlOf_accepted _ _ _ _ Ha).
  destruct (accepts_inv _ _ _ _ Ha) as (b' & props' & Eb & Ep & _ & Hk).
  injection Eb as <-. injection Ep as <-.
  destruct (encodePairs_decodePairs props (keys props)
              (firstNonString_None _ _ Hk) Hwf) as (pairs & He & _).
  unfold appendQuery. destruct props; [eauto|]. rewrite He. cbn [bind]. eauto.
Qed.

(** C6.  When the parameter mapping is not empty, the URL a builder returns
    is the base URL, then [?] if the base URL contains no [?] and [&] if it
    contains one, then the encoded [key=value] pairs in the mapping's
    iteration order, every pair after the first preceded by [&].  The
    builder does return on every accepted input with well-formed keys and
    values. *)
Theorem separator_correctness v env b props :
  props <> [] ->
  (accepts v env (JString b) (JObject props) = true ->
   wellFormedParams props = true ->
   exists url, generateUrlOf v env (JString b) (JObject props) = Normal url) /\
  (forall url,
     generateUrlOf v env (JString b) (JObject props) = Normal url ->
     exists first rest,
       Forall2 (fun key pair =>
                  exists encodedKey encodedValue,
                    encodeURIComponent (JString key) = Normal encodedKey /\
                    encodeURIComponent (get props key) = Normal encodedValue /\
                    pair = encodedKey ++ js "=" ++ encodedValue)
               (keys props) (first :: rest) /\
       (~ In 63 b ->
        url = b ++ js "?" ++ first ++ List.flat_map (fun pair => js "&" ++ pair) rest) /\
       (In 63 b ->
        url = b ++ js "&" ++ first ++ List.flat_map (fun pair => js "&" ++ pair) rest)).
Proof.
  intros Hne. split; [apply generateUrlOf_returns|].
  intros url H.
  apply generateUrlOf_Normal_inv in H as (b' & props' & Eb & Ep & _ & H).
  injection Eb as <-. injection Ep as <-.
  unfold appendQuery in H. destruct props as [|kv props]; [congruence|].
  destruct (encodePairs (kv :: props) (keys (kv :: props))) as [pairs|] eqn:He;
    [|discriminate].
  cbn [bind] in H. injection H as <-.
  pose proof (encodePairs_Forall2 _ _ _ He) as HF.
  destruct pairs as [|first rest]; [inversion HF|].
  exists first, rest. split; [exact HF|]. cbn [joinPairs].
  split; intros Hq.
  - apply includes_unit_false in Hq. change [63] with (js "?") in Hq. now rewrite Hq.
  - apply includes_unit in Hq. change [63] with (js "?") in Hq. now rewrite Hq.
Qed.

Lemma separator_correctness_witness :
  exists first rest,
    js "https://cdn.example.com/w.js?a=1&v=2&q=x%20y"
    = js "https://cdn.example.com/w.js?a=1" ++ js "&" ++ first
      ++ List.flat_map (fun pair => js "&" ++ pair) rest.
Proof.
  destruct (proj2 (separator_correctness StrictV browser
                     (js "https://cdn.example.com/w.js?a=1")
                     [(js "v", JString (js "2")); (js "q", JString (js "x y"))]
                     ltac:(discriminate))
                  (js "https://cdn.example.com/w.js?a=1&v=2&q=x%20y") eq_refl)
    as (first & rest & _ & _ & H).
  exists first, rest. apply H. vm_compute. tauto.
Defined.

Lemma in_joined_rest c rest :
  In c (List.flat_map (fun q => js "&" ++ q) rest) ->
  c = 38 \/ exists q, In q rest /\ In c q.
Proof.
  intros H. apply in_flat_map in H as (q & Hq & Hc).
  destruct Hc as [<-|Hc]; [now left|right; eauto].
Qed.

(** C7, amended.  For every input a builder accepts whose keys and values
    are well-formed UTF-16 (16-bit code units, every surrogate paired), the
    builder returns the base URL followed by a query string; that query
    string holds neither a raw space nor a [+], and percent-decoding it
    gives back exactly the key/value pairs of the mapping, in order.  A space
    is always written %20. *)
Theorem encoding_round_trip v env b props :
  accepts v env (JString b) (JObject props) = true ->
  wellFormedParams props = true ->
  (forall s r, Encode s = Normal r -> Encode (32 :: s) = Normal (js "%20" ++ r)) /\
  exists url query decoded,
    generateUrlOf v env (JString b) (JObject props) = Normal url /\
    url = b ++ query /\
    ~ In 32 query /\ ~ In 43 query /\
    decodeQueryString query = Some decoded /\
    List.map (fun kv => (fst kv, JString (snd kv))) decoded = entries props.
Proof.
  intros Ha Hwf.
  split; [intros s r Hs; cbn [Encode]; rewrite Hs; reflexivity|].
  rewrite (generateUrlOf_accepted _ _ _ _ Ha).
  destruct (accepts_inv _ _ _ _ Ha) as (b' & props' & Eb & Ep & _ & Hk).
  injection Eb as <-. injection Ep as <-.
  pose proof (firstNonString_None _ _ Hk) as Hstr.
  destruct (encodePairs_decodePairs props (keys props) Hstr Hwf)
    as (pairs & He & Hlen & Hsafe & Hd).
  assert (Hentries :
    List.map (fun kv => (fst kv, JString (snd kv)))
      (List.map (fun key => (key, ToString (get props key))) (keys props))
    = entries props).
  { unfold entries. rewrite map_map. apply map_ext_in. intros key Hin.
    rewrite Forall_forall in Hstr. destruct (Hstr key Hin) as [s Hs].
    cbn [fst snd]. now rewrite Hs. }
  unfold appendQuery. destruct props as [|kv props].
  - exists b, [], []. rewrite app_nil_r. repeat split; auto.
  - rewrite He. cbn [bind].
    destruct pairs as [|first rest]; [discriminate|].
    set (sep := if includes b (js "?") then js "&" else js "?").
    exists (b ++ joinPairs sep (first :: rest)), (joinPairs sep (first :: rest)),
      (List.map (fun key => (key, ToString (get (kv :: props) key))) (keys (kv :: props))).
    assert (Hsep : exists c, sep = [c] /\ (c = 63 \/ c = 38)).
    { unfold sep. destruct (includes b (js "?")); [exists 38|exists 63]; auto. }
    destruct Hsep as (c & -> & Hc).
    cbn [joinPairs app].
    inversion Hsafe as [|? ? (H32 & H38 & H43) Hrest]; subst.
    rewrite Forall_forall in Hrest.
    repeat split; auto.
    + intros [Hin|Hin]; [lia|].
      apply in_app_or in Hin as [Hin|Hin]; [contradiction|].
      apply in_joined_rest in Hin as [Hin|(q & Hq & Hin)]; [discriminate|].
      destruct (Hrest q Hq) as (? & ? & ?). contradiction.
    + intros [Hin|Hin]; [lia|].
      apply in_app_or in Hin as [Hin|Hin]; [contradiction|].
      apply in_joined_rest in Hin as [Hin|(q & Hq & Hin)]; [discriminate|].
      destruct (Hrest q Hq) as (? & ? & ?). contradiction.
    + unfold decodeQueryString.
      replace ((c =? 63) || (c =? 38)) with true
        by (destruct Hc as [-> | ->]; reflexivity).
      rewrite splitOn_join; [exact Hd|].
      constructor; [exact H38|].
      apply Forall_forall. intros q Hq. now destruct (Hrest q Hq) as (? & ? & ?).
Qed.

Lemma encoding_round_trip_witness :
  exists url query decoded,
    generateUrlOf StrictV browser (JString (js "https://cdn.example.com/w.js"))
      (JObject [(js "a b", JString [38; 61; 63; 233; 55357; 56832]);
                (js "k", JString (js "1+1"))]) = Normal url /\
    url = js "https://cdn.example.com/w.js" ++ query /\
    ~ In 32 query /\ ~ In 43 query /\
    decodeQueryString query = Some decoded /\
    List.map (fun kv => (fst kv, JString (snd kv))) decoded
    = entries [(js "a b", JString [38; 61; 63; 233; 55357; 56832]);
               (js "k", JString (js "1+1"))].
Proof.
  apply (proj2 (encoding_round_trip StrictV browser (js "https://cdn.example.com/w.js")
                  [(js "a b", JString [38; 61; 63; 233; 55357; 56832]);
                   (js "k", JString (js "1+1"))]
                  eq_refl eq_refl)).
Defined.

(** C7 as stated fails: a key that is an unpaired surrogate is a string, and
    on it both builders throw [URIError] instead of constructing a query
    string. *)
Lemma encoding_round_trip_counterexample :
  generateUrlOf StrictV browser (JString (js "https://cdn.example.com/w.js"))
    (JObject [([55296], JString (js "v"))]) = Throw URIError_malformed /\
  generateUrlOf LooseV browser (JString (js "https://cdn.example.com/w.js"))
    (JObject [([55296], JString (js "v"))]) = Throw URIError_malformed.
Proof. split; reflexivity. Qed.

(* ===================================================================== *)
(** ** The document *)
(* ===================================================================== *)

Lemma Node_eqb_eq a b : Node_eqb a b = true <-> a = b.
Proof.
  destruct a, b; simpl; rewrite ?Nat.eqb_eq; split; congruence.
Qed.

Lemma Node_eqb_refl a : Node_eqb a a = true.
Proof. now apply Node_eqb_eq. Qed.

Lemma removeNode_not_In n children : ~ In n (removeNode n children).
Proof.
  unfold removeNode. intros H. apply filter_In in H as [_ H].
  now rewrite Node_eqb_refl in H.
Qed.

Lemma removeNode_last n children :
  removeNode n (children ++ [n]) = removeNode n children.
Proof.
  unfold removeNode. rewrite filter_app. cbn [List.filter].
  rewrite Node_eqb_refl. cbn [negb]. apply app_nil_r.
Qed.

Lemma removeNode_idempotent n children :
  removeNode n (removeNode n children) = removeNode n children.
Proof.
  unfold removeNode. induction children as [|c children IH]; [reflexivity|].
  cbn [List.filter]. destruct (negb (Node_eqb c n)) eqn:E; [|exact IH].
  cbn [List.filter]. now rewrite E, IH.
Qed.

Lemma removeNode_absent n children : ~ In n children -> removeNode n children = children.
Proof.
  unfold removeNode. induction children as [|c children IH]; [reflexivity|].
  intros H. cbn [List.filter].
  destruct (Node_eqb c n) eqn:E.
  - apply Node_eqb_eq in E. subst. exfalso. apply H. now left.
  - cbn [negb]. rewrite IH; [reflexivity|]. intros Hin. apply H. now right.
Qed.

Lemma existsb_Node_eqb n children :
  List.existsb (Node_eqb n) children = true <-> In n children.
Proof.
  rewrite existsb_exists. split.
  - intros (x & Hx & E). apply Node_eqb_eq in E. now subst.
  - intros H. exists n. split; [exact H|apply Node_eqb_refl].
Qed.

Lemma findParent_None n hs index :
  Forall (fun children => ~ In n children) hs -> findParent n hs index = None.
Proof.
  intros H. revert index. induction H as [|children hs Hc _ IH]; intros index;
    cbn [findParent]; [reflexivity|].
  destruct (List.existsb (Node_eqb n) children) eqn:E; [|apply IH].
  apply existsb_Node_eqb in E. contradiction.
Qed.

Lemma updateNth_last {A} (l : list A) (x : A) (f : A -> A) :
  updateNth (l ++ [x]) (List.length l) f = l ++ [f x].
Proof.
  induction l as [|y l IH]; cbn [updateNth app List.length]; [reflexivity|].
  now rewrite IH.
Qed.

(** What the three statements that make the script element leave behind. *)
Lemma created_script d url :
  set_async (fst (createElement d)) true
    (set_src (fst (createElement d)) url (snd (createElement d)))
  = mkDocument (created d ++ [mkScript url true]) (heads d).
Proof.
  unfold set_async, set_src, createElement. cbn [fst snd created heads].
  now rewrite !updateNth_last.
Qed.

(* ===================================================================== *)
(** ** The loader *)
(* ===================================================================== *)

(** What creating the element and looking for the head come to. *)
Lemma script_insertion url d :
  (let (scriptElement, d0) := createElement d in
   let d1 := set_src scriptElement url d0 in
   let d2 := set_async scriptElement true d1 in
   match getElementsByTagName_head_0 d2 with
   | None =>
       (Normal (RejectedPromise (newError (js "No <head> element found in document"))),
        d2)
   | Some headElement =>
       let d3 := insertAdjacentElement_beforeend headElement scriptElement d2 in
       (Normal (Racing (newRace scriptElement url 2000)), d3)
   end)
  = match heads d with
    | [] =>
        (Normal (RejectedPromise (newError (js "No <head> element found in document"))),
         mkDocument (created d ++ [mkScript url true]) [])
    | children :: others =>
        let node := ScriptNode (List.length (created d)) in
        (Normal (Racing (newRace (List.length (created d)) url 2000)),
         mkDocument (created d ++ [mkScript url true])
           ((removeNode node children ++ [node]) :: List.map (removeNode node) others))
    end.
Proof.
  pose proof (created_script d url) as Hc.
  unfold createElement in *. cbn [fst snd] in Hc. cbv zeta. rewrite Hc.
  unfold getElementsByTagName_head_0. cbn [heads].
  destruct (heads d) as [|children others] eqn:Hh; [reflexivity|].
  unfold insertAdjacentElement_beforeend. cbn [heads created List.map updateNth].
  reflexivity.
Qed.

(** A started race comes from a built URL and a document with a head; the
    new element is the last child of the first head. *)
Lemma loader_Racing v env baseUrl params d r d' :
  asyncScriptLoaderOf v env baseUrl params d = (Normal (Racing r), d') ->
  exists url children others,
    generateUrlOf v env baseUrl params = Normal url /\
    heads d = children :: others /\
    r = newRace (List.length (created d)) url 2000 /\
    d' = mkDocument (created d ++ [mkScript url true])
           ((removeNode (ScriptNode (List.length (created d))) children
             ++ [ScriptNode (List.length (created d))])
            :: List.map (removeNode (ScriptNode (List.length (created d)))) others).
Proof.
  pose proof script_insertion as Ht. cbv zeta in Ht.
  destruct v; unfold asyncScriptLoaderOf, generateUrlOf.
  - unfold Strict.asyncScriptLoader.
    destruct (window_location_origin env); [|discriminate].
    destruct (Strict.validateInputs env baseUrl params); [|discriminate].
    cbv zeta.
    destruct (Strict.generateUrl env baseUrl params) as [url|]; [|discriminate].
    rewrite Ht. destruct (heads d) as [|children others]; [discriminate|].
    intros H. injection H as <- <-. exists url, children, others. auto.
  - unfold Loose.asyncScriptLoader.
    destruct baseUrl as [| | | |b| |]; try discriminate.
    destruct (jsstring_eqb (trim b) []); [discriminate|].
    match goal with |- context [if ?c then _ else _] => destruct c end;
      [discriminate|].
    destruct params as [| | | | | |props]; try discriminate.
    destruct (firstNonString props (keys props)); [discriminate|].
    cbv zeta.
    destruct (Loose.generateUrl (JString b) (JObject props)) as [url|]; [|discriminate].
    destruct (window_location_origin env); [|discriminate].
    rewrite Ht. destruct (heads d) as [|children others]; [discriminate|].
    intros H. injection H as <- <-. exists url, children, others. auto.
Qed.

(* ===================================================================== *)
(** ** The race *)
(* ===================================================================== *)

Create HintDb dom.

#[local] Hint Resolve removeNode_not_In Node_eqb_refl : dom.

(** Once the timer is gone and both listeners are detached, nothing that
    happens reaches the promise or the document. *)
Lemma dispatch_quiet ev w :
  timeoutPending (race w) = false ->
  loadListener (race w) = false ->
  errorListener (race w) = false ->
  dispatch ev w = w.
Proof.
  intros Ht Hl He. destruct ev; unfold dispatch; now rewrite ?Ht, ?Hl, ?He.
Qed.

Lemma run_quiet evs w :
  timeoutPending (race w) = false ->
  loadListener (race w) = false ->
  errorListener (race w) = false ->
  run evs w = w.
Proof.
  intros Ht Hl He. induction evs as [|ev evs IH]; [reflexivity|].
  unfold run in *. cbn [List.fold_left]. now rewrite dispatch_quiet.
Qed.

(** The element appended to the first head has that head for parent. *)
Lemma parentNode_appended made el children others :
  parentNode el
    (mkDocument made
       ((removeNode (ScriptNode el) children ++ [ScriptNode el])
        :: List.map (removeNode (ScriptNode el)) others)) = Some O.
Proof.
  unfold parentNode. cbn [heads findParent].
  rewrite (proj2 (existsb_Node_eqb _ _)); [reflexivity|].
  apply in_or_app. right. now left.
Qed.

(** A node filtered out of every head is a child of none. *)
Lemma removed_everywhere n hs :
  Forall (fun children => ~ In n children) (List.map (removeNode n) hs).
Proof.
  apply Forall_forall. intros c Hc. apply in_map_iff in Hc as (c' & <- & _).
  auto with dom.
Qed.

(** [cleanup(true)] on a document in which the element was appended to the
    first head: the element is taken out again and nothing else moves. *)
Lemma cleanup_removes made r children others :
  document
    (cleanup true
       (mkWorld
          (mkDocument made
             ((removeNode (ScriptNode (scriptElement r)) children
               ++ [ScriptNode (scriptElement r)])
              :: List.map (removeNode (ScriptNode (scriptElement r))) others))
          r))
  = mkDocument made
      (List.map (removeNode (ScriptNode (scriptElement r))) (children :: others)).
Proof.
  unfold cleanup. cbn [race document]. rewrite parentNode_appended.
  unfold removeChild. cbn [heads created updateNth List.map].
  now rewrite removeNode_last, removeNode_idempotent.
Qed.

(** Taking a node out of every head leaves no head holding it. *)
Lemma headsHolding_removed n hs : headsHolding n (List.map (removeNode n) hs) = O.
Proof.
  unfold headsHolding. induction hs as [|children hs IH]; [reflexivity|].
  cbn [List.map List.filter].
  destruct (List.existsb (Node_eqb n) (removeNode n children)) eqn:E; [|exact IH].
  apply existsb_Node_eqb in E. now apply removeNode_not_In in E.
Qed.

(** Where no head holds the node, taking it out changes nothing. *)
Lemma headsHolding_none n hs :
  headsHolding n hs = O -> List.map (removeNode n) hs = hs.
Proof.
  unfold headsHolding. induction hs as [|children hs IH]; [reflexivity|].
  cbn [List.map List.filter].
  destruct (List.existsb (Node_eqb n) children) eqn:E; [discriminate|].
  intros H. rewrite (IH H). f_equal. apply removeNode_absent.
  intros Hin. apply existsb_Node_eqb in Hin. congruence.
Qed.

(** Where at most one head holds the node, taking it out of the first head
    that holds it is taking it out of the tree. *)
Lemma findParent_removeChild n hs index :
  (headsHolding n hs <= 1)%nat ->
  match findParent n hs index with
  | Some parent =>
      exists i, parent = (index + i)%nat /\
                updateNth hs i (removeNode n) = List.map (removeNode n) hs
  | None => List.map (removeNode n) hs = hs
  end.
Proof.
  revert index. induction hs as [|children hs IH]; intros index; [reflexivity|].
  unfold headsHolding in *. cbn [findParent List.filter List.map].
  destruct (List.existsb (Node_eqb n) children) eqn:E.
  - cbn [List.length]. intros H. exists O. split; [lia|].
    cbn [updateNth]. f_equal. symmetry. apply headsHolding_none.
    unfold headsHolding. lia.
  - intros H. specialize (IH (S index) H).
    assert (Hc : removeNode n children = children).
    { apply removeNode_absent. intros Hin. apply existsb_Node_eqb in Hin. congruence. }
    destruct (findParent n hs (S index)) as [parent|].
    + destruct IH as (i & -> & Hi). exists (S i). split; [lia|].
      cbn [updateNth]. now rewrite Hi, Hc.
    + now rewrite IH, Hc.
Qed.

(** [cleanup(true)] in any document in which at most one head holds the
    element: the element leaves the tree and nothing else moves. *)
Lemma cleanup_removes_anywhere doc r :
  (headsHolding (ScriptNode (scriptElement r)) (heads doc) <= 1)%nat ->
  document (cleanup true (mkWorld doc r))
  = mkDocument (created doc)
      (List.map (removeNode (ScriptNode (scriptElement r))) (heads doc)).
Proof.
  intros H. unfold cleanup, parentNode. cbn [race document].
  pose proof (findParent_removeChild _ _ O H) as Hf.
  destruct (findParent (ScriptNode (scriptElement r)) (heads doc) O) as [parent|].
  - destruct Hf as (i & -> & Hi). unfold removeChild. cbn [Nat.add]. now rewrite Hi.
  - rewrite Hf. now destruct doc.
Qed.

Section StartedRace.

(** One call of either version that got as far as the race. *)
Variables (v : Variant) (env : Env) (baseUrl params : JsValue).
Variables (d d' : Document) (r : Race).
Hypothesis started :
  asyncScriptLoaderOf v env baseUrl params d = (Normal (Racing r), d').



(** C3.  In every call that reaches the race the script element is
    attached: it is the last child of the first head, and the only head that
    holds it.  Whichever event comes first, and whatever the document has
    become by then through other loads, as long as at most one head holds
    the element: the timer is no longer pending and both listeners are
    detached; after the error event or the timer the element has been taken
    out of its parent, every other node staying where it was, so that it has
    no parent and is a child of no head; after the load event the document is
    what it was, the element still in place.  This holds in particular of
    the document the call itself left. *)
Theorem cleanup_effects (first : Event) :
  parentNode (scriptElement r) d' = Some O /\
  (exists children others,
     heads d' = (children ++ [ScriptNode (scriptElement r)]) :: others) /\
  timeoutPending (race (dispatch first (mkWorld d' r))) = false /\
  loadListener (race (dispatch first (mkWorld d' r))) = false /\
  errorListener (race (dispatch first (mkWorld d' r))) = false /\
  match first with
  | LoadEvent => document (dispatch first (mkWorld d' r)) = d'
  | ErrorEvent | TimerExpires =>
      parentNode (scriptElement r) (document (dispatch first (mkWorld d' r))) = None /\
      Forall (fun children => ~ In (ScriptNode (scriptElement r)) children)
        (heads (document (dispatch first (mkWorld d' r)))) /\
      created (document (dispatch first (mkWorld d' r))) = created d'
  end /\
  headsHolding (ScriptNode (scriptElement r)) (heads d') = 1%nat /\
  (forall later : Document,
     (headsHolding (ScriptNode (scriptElement r)) (heads later) <= 1)%nat ->
     timeoutPending (race (dispatch first (mkWorld later r))) = false /\
     loadListener (race (dispatch first (mkWorld later r))) = false /\
     errorListener (race (dispatch first (mkWorld later r))) = false /\
     match first with
     | LoadEvent => document (dispatch first (mkWorld later r)) = later
     | ErrorEvent | TimerExpires =>
         document (dispatch first (mkWorld later r))
         = mkDocument (created later)
             (List.map (removeNode (ScriptNode (scriptElement r))) (heads later)) /\
         parentNode (scriptElement r) (document (dispatch first (mkWorld later r)))
         = None /\
         Forall (fun children => ~ In (ScriptNode (scriptElement r)) children)
           (heads (document (dispatch first (mkWorld later r))))
     end).
Proof.
  destruct (loader_Racing _ _ _ _ _ _ _ started)
    as (url & children & others & _ & _ & Hr & Hd).
  assert (Hel : scriptElement r = List.length (created d)) by now rewrite Hr.
  rewrite <- Hel in Hd.
  assert (Harmed : timeoutPending r = true /\ loadListener r = true
                   /\ errorListener r = true) by now rewrite Hr.
  destruct Harmed as (Ht & Hl & He).
  assert (Hone : headsHolding (ScriptNode (scriptElement r)) (heads d') = 1%nat).
  { rewrite Hd. unfold headsHolding. cbn [heads List.filter].
    rewrite (proj2 (existsb_Node_eqb _ _)) by (apply in_or_app; right; now left).
    cbn [List.length]. f_equal. apply headsHolding_removed. }
  assert (Hgeneral : forall later : Document,
     (headsHolding (ScriptNode (scriptElement r)) (heads later) <= 1)%nat ->
     timeoutPending (race (dispatch first (mkWorld later r))) = false /\
     loadListener (race (dispatch first (mkWorld later r))) = false /\
     errorListener (race (dispatch first (mkWorld later r))) = false /\
     match first with
     | LoadEvent => document (dispatch first (mkWorld later r)) = later
     | ErrorEvent | TimerExpires =>
         document (dispatch first (mkWorld later r))
         = mkDocument (created later)
             (List.map (removeNode (ScriptNode (scriptElement r))) (heads later)) /\
         parentNode (scriptElement r) (document (dispatch first (mkWorld later r)))
         = None /\
         Forall (fun children => ~ In (ScriptNode (scriptElement r)) children)
           (heads (document (dispatch first (mkWorld later r))))
     end).
  { intros later Hlater.
    pose proof (removed_everywhere (ScriptNode (scriptElement r)) (heads later)) as Hgone.
    destruct first; unfold dispatch; cbn [race]; rewrite ?Ht, ?Hl, ?He.
    - repeat split.
    - unfold onError, settle. cbn [race document].
      rewrite (cleanup_removes_anywhere later r Hlater).
      unfold parentNode. cbn [heads].
      repeat split; auto using findParent_None.
    - unfold onTimeout, settle. cbn [race document].
      change (cleanup true (expire (mkWorld later r)))
        with (cleanup true (mkWorld later r)).
      rewrite (cleanup_removes_anywhere later r Hlater).
      unfold parentNode. cbn [heads].
      repeat split; auto using findParent_None. }
  split; [rewrite Hd; apply parentNode_appended|].
  split; [rewrite Hd; eexists; eexists; reflexivity|].
  assert (Hle : (headsHolding (ScriptNode (scriptElement r)) (heads d') <= 1)%nat) by lia.
  destruct (Hgeneral d' Hle) as (H1 & H2 & H3 & H4).
  split; [exact H1|]. split; [exact H2|]. split; [exact H3|].
  split; [|split; [exact Hone|exact Hgeneral]].
  destruct first; [exact H4| |];
    destruct H4 as (Hdoc & Hp & Hf); rewrite Hdoc in *; auto.
Qed.

End StartedRace.



Lemma cleanup_effects_witness :
  exists r d' r2,
    Strict.asyncScriptLoader browser (JString (js "https://cdn.example.com/a.js"))
      (JObject []) page = (Normal (Racing r), d') /\
    Strict.asyncScriptLoader browser (JString (js "https://cdn.example.com/b.js"))
      (JObject []) d'
    = (Normal (Racing r2),
       mkDocument [mkScript (js "https://cdn.example.com/a.js") true;
                   mkScript (js "https://cdn.example.com/b.js") true]
         [[DocNode 0; DocNode 1; ScriptNode 0; ScriptNode 1]]) /\
    document
      (dispatch ErrorEvent
         (mkWorld
            (mkDocument [mkScript (js "https://cdn.example.com/a.js") true;
                         mkScript (js "https://cdn.example.com/b.js") true]
               [[DocNode 0; DocNode 1; ScriptNode 0; ScriptNode 1]])
            r))
    = mkDocument [mkScript (js "https://cdn.example.com/a.js") true;
                  mkScript (js "https://cdn.example.com/b.js") true]
        [[DocNode 0; DocNode 1; ScriptNode 1]].
Proof.
  eexists. eexists. eexists. split; [reflexivity|]. split; [reflexivity|].
  destruct (cleanup_effects StrictV browser
              (JString (js "https://cdn.example.com/a.js")) (JObject []) page _ _
              eq_refl ErrorEvent)
    as (_ & _ & _ & _ & _ & _ & _ & Hlater).
  destruct (Hlater
              (mkDocument [mkScript (js "https://cdn.example.com/a.js") true;
                           mkScript (js "https://cdn.example.com/b.js") true]
                 [[DocNode 0; DocNode 1; ScriptNode 0; ScriptNode 1]])
              (le_n 1))
    as (_ & _ & _ & Hdoc & _).
  exact Hdoc.
Defined.

(* ===================================================================== *)
(** ** Failures before the race *)
(* ===================================================================== *)

(** C4, amended.  In the strict version: without a [window] the loader
    answers with the already-rejected environment error and the document is
    untouched; with a [window], every validation failure is answered with
    that failure, already rejected, and the document is untouched; where the
    document has no head, the loader answers with the already-rejected
    "No <head>" error after it has created the script element, which stays
    detached: the tree of the document is unchanged and one element has been
    added to those created.  No already-rejected answer changes the tree. *)
Theorem fast_failures env baseUrl params d :
  (window_location_origin env = None ->
   Strict.asyncScriptLoader env baseUrl params d
   = (Normal (RejectedPromise
        (newError (js "asyncScriptLoader requires a browser environment"))), d)) /\
  (forall error,
     window_location_origin env <> None ->
     Strict.validateInputs env baseUrl params = Invalid error ->
     Strict.asyncScriptLoader env baseUrl params d
     = (Normal (RejectedPromise error), d)) /\
  (forall url,
     window_location_origin env <> None ->
     Strict.generateUrl env baseUrl params = Normal url ->
     heads d = [] ->
     Strict.asyncScriptLoader env baseUrl params d
     = (Normal (RejectedPromise (newError (js "No <head> element found in document"))),
        mkDocument (created d ++ [mkScript url true]) [])) /\
  (forall reason d',
     Strict.asyncScriptLoader env baseUrl params d
     = (Normal (RejectedPromise reason), d') ->
     heads d' = heads d /\
     (d' = d \/
      heads d = [] /\ exists url, created d' = created d ++ [mkScript url true])).
Proof.
  pose proof script_insertion as Ht. cbv zeta in Ht.
  unfold Strict.asyncScriptLoader.
  split; [intros ->; reflexivity|].
  split; [intros error Hw ->; destruct (window_location_origin env);
          [reflexivity|congruence]|].
  split.
  - intros url Hw Hu Hh.
    destruct (window_location_origin env); [|congruence].
    pose proof (generateUrlOf_Normal StrictV env _ _ _ Hu) as Ha.
    unfold accepts in Ha.
    destruct (Strict.validateInputs env baseUrl params); [|discriminate].
    cbv zeta. rewrite Hu, Ht, Hh. reflexivity.
  - intros reason d'.
    destruct (window_location_origin env).
    2:{ intros H. injection H as _ <-. auto. }
    destruct (Strict.validateInputs env baseUrl params).
    2:{ intros H. injection H as _ <-. auto. }
    cbv zeta.
    destruct (Strict.generateUrl env baseUrl params) as [url|]; [|discriminate].
    rewrite Ht. destruct (heads d) as [|children others] eqn:Hh; [|discriminate].
    intros H. injection H as _ <-. cbn [heads created]. eauto.
Qed.

Lemma fast_failures_witness :
  Strict.asyncScriptLoader headless (JString (js "https://cdn.example.com/widget.js"))
    (JObject []) page
  = (Normal (RejectedPromise
       (newError (js "asyncScriptLoader requires a browser environment"))), page) /\
  Strict.asyncScriptLoader browser (JString (js "https://cdn.example.com/widget.js"))
    JNull page
  = (Normal (RejectedPromise (newTypeError (js "queryParamsObject must be an object"))),
     page) /\
  Strict.asyncScriptLoader browser (JString (js "https://cdn.example.com/widget.js"))
    (JObject []) noHeadPage
  = (Normal (RejectedPromise (newError (js "No <head> element found in document"))),
     mkDocument (created noHeadPage
                 ++ [mkScript (js "https://cdn.example.com/widget.js") true]) []).
Proof.
  split; [|split].
  - apply (proj1 (fast_failures headless _ _ page)). reflexivity.
  - apply (proj1 (proj2 (fast_failures browser
                           (JString (js "https://cdn.example.com/widget.js"))
                           JNull page))).
    + discriminate.
    + reflexivity.
  - apply (proj1 (proj2 (proj2 (fast_failures browser
                           (JString (js "https://cdn.example.com/widget.js"))
                           (JObject []) noHeadPage)))).
    + discriminate.
    + reflexivity.
    + reflexivity.
Defined.

(** C4 as stated fails on the path of the missing head: the loader has
    created the script element, with its source set, before it finds that
    the document has no head. *)
Lemma fast_failures_counterexample :
  Strict.asyncScriptLoader browser (JString (js "https://cdn.example.com/widget.js"))
    (JObject [(js "v", JString (js "2"))]) noHeadPage
  = (Normal (RejectedPromise (newError (js "No <head> element found in document"))),
     mkDocument [mkScript (js "https://cdn.example.com/widget.js?v=2") true] []) /\
  mkDocument [mkScript (js "https://cdn.example.com/widget.js?v=2") true] []
  <> noHeadPage.
Proof. split; [reflexivity|discriminate]. Qed.

(* ===================================================================== *)
(** ** The validation rejection set *)
(* ===================================================================== *)





(** The strict validator on an acceptable base URL goes on to the
    parameters. *)
Lemma validateInputs_acceptable env b params :
  acceptableBaseUrl StrictV env b ->
  Strict.validateInputs env (JString b) params =
  match params with
  | JNull | JUndefined =>
      Invalid (newTypeError (js "queryParamsObject must be an object"))
  | JObject props => Strict.validateKeys props (keys props)
  | _ => Invalid (newTypeError (js "queryParamsObject must be a plain object"))
  end.
Proof.
  intros (Hb & origin & protocol & Ho & Hu & Hp).
  unfold Strict.validateInputs.
  rewrite (proj2 (jsstring_eqb_neq _ _) Hb), Ho, Hu.
  destruct Hp as [-> | ->]; reflexivity.
Qed.






(* ===================================================================== *)
(** ** More on encoding *)
(* ===================================================================== *)

(** [Encode] fails in one way only. *)
Lemma Encode_Throw s e : Encode s = Throw e -> e = URIError_malformed.
Proof.
  remember (List.length s) as n eqn:Hn.
  assert (Hle : (List.length s <= n)%nat) by lia. clear Hn.
  revert s e Hle. induction n as [|n IH]; intros [|c rest] e Hle; cbn [List.length] in Hle;
    try discriminate; try lia.
  cbn [Encode].
  destruct (isUnescaped c).
  { destruct (Encode rest) as [r|e0] eqn:Hr; cbn [bind]; [discriminate|].
    intros H. injection H as <-. apply (IH rest); [lia|exact Hr]. }
  destruct (isLeadingSurrogate c).
  { destruct rest as [|d rest']; [congruence|].
    destruct (isTrailingSurrogate d); [|congruence].
    destruct (Encode rest') as [r|e0] eqn:Hr; cbn [bind]; [discriminate|].
    intros H. injection H as <-. apply (IH rest'); [cbn [List.length] in Hle; lia|exact Hr]. }
  destruct (isTrailingSurrogate c); [congruence|].
  destruct (Encode rest) as [r|e0] eqn:Hr; cbn [bind]; [discriminate|].
  intros H. injection H as <-. apply (IH rest); [lia|exact Hr].
Qed.

(** On 16-bit code units, [Encode] returns on the well-formed strings
    only. *)
Lemma Encode_Normal_wellFormed s r :
  is16Bit s = true -> Encode s = Normal r -> isWellFormed s = true.
Proof.
  remember (List.length s) as n eqn:Hn.
  assert (Hle : (List.length s <= n)%nat) by lia. clear Hn.
  revert s r Hle. induction n as [|n IH]; intros [|c rest] r Hle; cbn [List.length] in Hle;
    try reflexivity; try lia.
  unfold is16Bit. cbn [List.forallb Encode isWellFormed]. fold (is16Bit rest).
  intros H16. apply andb_true_iff in H16 as [Hc H16].
  apply andb_true_iff in Hc as [Hc1 Hc2]. rewrite ?Hc1, ?Hc2.
  destruct (isLeadingSurrogate c) eqn:Hl.
  { assert (Hu : isUnescaped c = false).
    { destruct (isUnescaped c) eqn:E; [|reflexivity].
      apply unescaped_ascii in E. unfold isLeadingSurrogate in Hl.
      apply andb_true_iff in Hl as [Hl _]. apply Z.leb_le in Hl. lia. }
    rewrite Hu. destruct rest as [|d rest']; [discriminate|].
    destruct (isTrailingSurrogate d); [|discriminate].
    destruct (Encode rest') as [r'|] eqn:Hr; [|discriminate].
    intros _. cbn [andb]. apply (IH rest' r'); [cbn [List.length] in Hle; lia| |exact Hr].
    unfold is16Bit in *. cbn [List.forallb] in H16.
    now apply andb_true_iff in H16 as [_ H16]. }
  destruct (isUnescaped c) eqn:Hu.
  { assert (Ht : isTrailingSurrogate c = false).
    { destruct (isTrailingSurrogate c) eqn:E; [|reflexivity].
      apply unescaped_ascii in Hu. unfold isTrailingSurrogate in E.
      apply andb_true_iff in E as [E _]. apply Z.leb_le in E. lia. }
    rewrite Ht. destruct (Encode rest) as [r'|] eqn:Hr; [|discriminate].
    intros _. cbn [negb andb]. apply (IH rest r'); [lia|exact H16|exact Hr]. }
  destruct (isTrailingSurrogate c); [discriminate|].
  destruct (Encode rest) as [r'|] eqn:Hr; [|discriminate].
  intros _. cbn [negb andb]. apply (IH rest r'); [lia|exact H16|exact Hr].
Qed.

(** A string of unescaped characters is its own encoding. *)
Lemma Encode_unescaped s : List.forallb isUnescaped s = true -> Encode s = Normal s.
Proof.
  induction s as [|c s IH]; [reflexivity|].
  cbn [List.forallb Encode]. intros H. apply andb_true_iff in H as [Hc Hs].
  now rewrite Hc, IH.
Qed.

(** A well-formed string has 16-bit code units. *)
Lemma wellFormed_16Bit s : isWellFormed s = true -> is16Bit s = true.
Proof.
  revert s. apply wellFormed_ind; [reflexivity| |].
  - intros c rest _ _ Hc _ IH. unfold is16Bit in *. cbn [List.forallb].
    rewrite IH. rewrite (proj2 (Z.leb_le 0 c)), (proj2 (Z.ltb_lt c 65536)) by lia.
    reflexivity.
  - intros c d rest Hl Ht _ IH. unfold is16Bit in *. cbn [List.forallb]. rewrite IH.
    unfold isLeadingSurrogate, isTrailingSurrogate in *.
    apply andb_true_iff in Hl as [H1 H2]. apply andb_true_iff in Ht as [H3 H4].
    apply Z.leb_le in H1, H2, H3, H4.
    rewrite (proj2 (Z.leb_le 0 c)), (proj2 (Z.ltb_lt c 65536)),
      (proj2 (Z.leb_le 0 d)), (proj2 (Z.ltb_lt d 65536)) by lia.
    reflexivity.
Qed.

(* ===================================================================== *)
(** ** Blank strings *)
(* ===================================================================== *)

Lemma trimStart_nil s : trimStart s = [] <-> List.forallb isWhiteSpace s = true.
Proof.
  induction s as [|c s IH]; cbn [trimStart List.forallb]; [tauto|].
  destruct (isWhiteSpace c); cbn [andb]; [exact IH|]. split; discriminate.
Qed.

Lemma trimStart_head s c rest : trimStart s = c :: rest -> isWhiteSpace c = false.
Proof.
  induction s as [|d s IH]; cbn [trimStart]; [discriminate|].
  destruct (isWhiteSpace d) eqn:E; [exact IH|]. intros H. injection H as <- _. exact E.
Qed.

Lemma forallb_rev {A} (f : A -> bool) l : List.forallb f (rev l) = List.forallb f l.
Proof.
  induction l as [|x l IH]; [reflexivity|].
  cbn [rev List.forallb]. rewrite forallb_app, IH. cbn [List.forallb].
  rewrite andb_true_r. apply andb_comm.
Qed.

(** [s.trim() === ''] holds exactly when [s] is made of white space. *)
Lemma trim_nil s : trim s = [] <-> List.forallb isWhiteSpace s = true.
Proof.
  unfold trim, trimEnd. split.
  - intros H. apply (f_equal (@rev Z)) in H. rewrite rev_involutive in H. cbn in H.
    apply trimStart_nil in H. rewrite forallb_rev in H.
    destruct (trimStart s) as [|c rest] eqn:E; [now apply trimStart_nil|].
    apply trimStart_head in E. cbn [List.forallb] in H. rewrite E in H. discriminate.
  - intros H. apply trimStart_nil in H. now rewrite H.
Qed.

(* ===================================================================== *)
(** ** When the builder throws *)
(* ===================================================================== *)

Lemma encodePairs_Throw props ks e :
  encodePairs props ks = Throw e -> e = URIError_malformed.
Proof.
  induction ks as [|key ks IH]; cbn [encodePairs]; [discriminate|].
  unfold encodeURIComponent.
  destruct (Encode (ToString (JString key))) as [ek|e1] eqn:Hk; cbn [bind].
  2:{ intros H. injection H as <-. now apply Encode_Throw in Hk. }
  destruct (Encode (ToString (get props key))) as [ev|e2] eqn:Hv; cbn [bind].
  2:{ intros H. injection H as <-. now apply Encode_Throw in Hv. }
  destruct (encodePairs props ks) as [pairs|e3]; cbn [bind]; [discriminate|].
  intros H. injection H as <-. now apply IH.
Qed.

Lemma encodePairs_Normal_wellFormed props ks pairs :
  List.forallb (fun key => is16Bit key && is16Bit (ToString (get props key))) ks = true ->
  encodePairs props ks = Normal pairs ->
  List.forallb (fun key => isWellFormed key && isWellFormed (ToString (get props key))) ks
  = true.
Proof.
  revert pairs. induction ks as [|key ks IH]; intros pairs; [reflexivity|].
  cbn [List.forallb encodePairs]. unfold encodeURIComponent. cbn [ToString].
  intros H16. apply andb_true_iff in H16 as [Hkv H16].
  apply andb_true_iff in Hkv as [Hk Hv].
  destruct (Encode key) as [ek|] eqn:Ek; [|discriminate].
  destruct (Encode (ToString (get props key))) as [ev|] eqn:Ev; [|discriminate].
  destruct (encodePairs props ks) as [rest|] eqn:Er; [|discriminate].
  intros _. cbn [bind].
  rewrite (Encode_Normal_wellFormed _ _ Hk Ek), (Encode_Normal_wellFormed _ _ Hv Ev).
  now rewrite (IH rest).
Qed.

(** Past validation a builder either returns or throws the [URIError] of
    [encodeURIComponent]. *)
Lemma accepted_outcome v env b props :
  accepts v env (JString b) (JObject props) = true ->
  (exists url, generateUrlOf v env (JString b) (JObject props) = Normal url) \/
  generateUrlOf v env (JString b) (JObject props) = Throw URIError_malformed.
Proof.
  intros Ha. rewrite (generateUrlOf_accepted _ _ _ _ Ha). unfold appendQuery.
  destruct props as [|kv props]; [eauto|].
  destruct (encodePairs (kv :: props) (keys (kv :: props))) as [pairs|e] eqn:He;
    cbn [bind]; [eauto|].
  right. now rewrite (encodePairs_Throw _ _ _ He).
Qed.

(** X7.  On input that validation accepts and whose keys and values are
    strings of 16-bit code units, a builder returns a URL exactly when every
    key and every value is free of unpaired surrogates; otherwise it throws
    the [URIError] of [encodeURIComponent]. *)
Theorem builder_returns_iff_well_formed v env b props :
  accepts v env (JString b) (JObject props) = true ->
  params16Bit props = true ->
  ((exists url, generateUrlOf v env (JString b) (JObject props) = Normal url)
   <-> wellFormedParams props = true) /\
  (wellFormedParams props = false ->
   generateUrlOf v env (JString b) (JObject props) = Throw URIError_malformed).
Proof.
  intros Ha H16.
  assert (Hfwd : forall url,
    generateUrlOf v env (JString b) (JObject props) = Normal url ->
    wellFormedParams props = true).
  { intros url H. rewrite (generateUrlOf_accepted _ _ _ _ Ha) in H.
    unfold appendQuery in H. destruct props as [|kv props]; [reflexivity|].
    destruct (encodePairs (kv :: props) (keys (kv :: props))) as [pairs|] eqn:He;
      [|discriminate].
    exact (encodePairs_Normal_wellFormed _ _ _ H16 He). }
  split.
  - split; [intros [url H]; eauto|now apply generateUrlOf_returns].
  - intros Hwf. destruct (accepted_outcome _ _ _ _ Ha) as [[url H]|H]; [|exact H].
    apply Hfwd in H. congruence.
Qed.

Lemma builder_returns_iff_well_formed_witness :
  generateUrlOf LooseV browser (JString (js "/w.js"))
    (JObject [(js "k", JString [56320; 97])]) = Throw URIError_malformed.
Proof.
  apply (proj2 (builder_returns_iff_well_formed LooseV browser (js "/w.js")
                  [(js "k", JString [56320; 97])] eq_refl eq_refl)).
  reflexivity.
Defined.

(** An unpaired surrogate in accepted input makes the builder throw. *)
Lemma ill_formed_throws v env b props :
  accepts v env (JString b) (JObject props) = true ->
  params16Bit props = true ->
  wellFormedParams props = false ->
  generateUrlOf v env (JString b) (JObject props) = Throw URIError_malformed.
Proof.
  intros Ha H16 Hwf.
  destruct (accepted_outcome _ _ _ _ Ha) as [[url H]|H]; [exfalso|exact H].
  rewrite (generateUrlOf_accepted _ _ _ _ Ha) in H.
  unfold appendQuery in H. destruct props as [|kv props]; [discriminate Hwf|].
  destruct (encodePairs (kv :: props) (keys (kv :: props))) as [pairs|] eqn:He;
    [|discriminate].
  pose proof (encodePairs_Normal_wellFormed _ _ _ H16 He) as Hc.
  unfold wellFormedParams in Hwf. congruence.
Qed.

(** X1.  On arguments that validation accepts, with keys and values of
    16-bit code units of which one holds an unpaired surrogate, the loader
    does not answer with a rejected promise: it throws the [URIError] of
    [encodeURIComponent] itself, before it has done anything to the
    document.  This is so in the strict version where a [window] exists,
    and in the loose version wherever a base URL that starts with "http"
    parses without a base. *)
Theorem ill_formed_call_throws v env b props d :
  accepts v env (JString b) (JObject props) = true ->
  params16Bit props = true ->
  wellFormedParams props = false ->
  (v = StrictV -> window_location_origin env <> None) ->
  (v = LooseV ->
   startsWith b (js "http") || startsWith b (js "https") = true ->
   URL_protocol env b None <> None) ->
  asyncScriptLoaderOf v env (JString b) (JObject props) d
  = (Throw URIError_malformed, d).
Proof.
  intros Ha H16 Hwf Hw Hurl.
  pose proof (ill_formed_throws _ _ _ _ Ha H16 Hwf) as Hu.
  destruct v; unfold asyncScriptLoaderOf, generateUrlOf in *.
  - unfold Strict.asyncScriptLoader.
    destruct (window_location_origin env); [|now destruct (Hw eq_refl)].
    unfold accepts in Ha.
    destruct (Strict.validateInputs env (JString b) (JObject props)); [|discriminate].
    cbv zeta. now rewrite Hu.
  - unfold Loose.asyncScriptLoader.
    unfold accepts in Ha. apply andb_true_iff in Ha as [Hb Hk].
    apply negb_true_iff in Hb. rewrite Hb.
    replace ((startsWith b (js "http") || startsWith b (js "https"))
             && match URL_protocol env b None with None => true | Some _ => false end)
      with false.
    2:{ destruct (startsWith b (js "http") || startsWith b (js "https")); [|reflexivity].
        destruct (URL_protocol env b None); [reflexivity|].
        now destruct (Hurl eq_refl eq_refl). }
    destruct (firstNonString props (keys props)); [discriminate|].
    cbv zeta. now rewrite Hu.
Qed.

Lemma ill_formed_call_throws_witness :
  Strict.asyncScriptLoader browser (JString (js "https://cdn.example.com/w.js"))
    (JObject [(js "k", JString [55357])]) page
  = (Throw URIError_malformed, page).
Proof.
  apply (ill_formed_call_throws StrictV browser (js "https://cdn.example.com/w.js")
           [(js "k", JString [55357])] page eq_refl eq_refl eq_refl).
  - discriminate.
  - discriminate.
Defined.

(* ===================================================================== *)
(** ** The two versions compared *)
(* ===================================================================== *)

Lemma accepts_strict_loose env baseUrl params :
  accepts StrictV env baseUrl params = true -> accepts LooseV env baseUrl params = true.
Proof.
  intros Ha. destruct (accepts_inv _ _ _ _ Ha) as (b & props & -> & -> & Hb & Hk).
  unfold accepts. rewrite Hk, (proj2 (jsstring_eqb_neq _ _) Hb). reflexivity.
Qed.

(** X2.  Whatever URL the strict builder returns, the loose builder returns
    on the same arguments. *)
Theorem strict_builder_refines_loose env baseUrl params url :
  Strict.generateUrl env baseUrl params = Normal url ->
  Loose.generateUrl baseUrl params = Normal url.
Proof.
  intros H. apply (generateUrlOf_Normal_inv StrictV env) in H
    as (b & props & -> & -> & Ha & Hq).
  apply accepts_strict_loose in Ha.
  exact (eq_trans (generateUrlOf_accepted LooseV env _ _ Ha) Hq).
Qed.

Lemma strict_builder_refines_loose_witness :
  Loose.generateUrl (JString (js "/w.js?a=1")) (JObject [(js "q", JString (js "x y"))])
  = Normal (js "/w.js?a=1&q=x%20y").
Proof.
  apply (strict_builder_refines_loose browser). reflexivity.
Defined.

(** X14.  Where the strict loader starts a race, the base URL is a string,
    and what the loose loader does on the same arguments and document is
    decided by its own test of that string: if it starts with "http" and
    [new URL(baseUrl)], without a base, throws, the loose loader rejects
    with "baseUrl must be a valid URL" and leaves the document alone; in
    every other case it starts the very same race and leaves the very same
    document. *)
Theorem strict_race_in_loose env baseUrl params d r d' :
  Strict.asyncScriptLoader env baseUrl params d = (Normal (Racing r), d') ->
  exists b,
    baseUrl = JString b /\
    (startsWith b (js "http") || startsWith b (js "https") = true ->
     URL_protocol env b None = None ->
     Loose.asyncScriptLoader env baseUrl params d
     = (Normal (RejectedPromise (newError (js "baseUrl must be a valid URL"))), d)) /\
    ((startsWith b (js "http") || startsWith b (js "https") = true ->
      URL_protocol env b None <> None) ->
     Loose.asyncScriptLoader env baseUrl params d = (Normal (Racing r), d')).
Proof.
  intros H.
  assert (Hw : window_location_origin env <> None).
  { unfold Strict.asyncScriptLoader in H.
    destruct (window_location_origin env); [discriminate|discriminate H]. }
  pose proof (loader_Racing StrictV _ _ _ _ _ _ H)
    as (url & children & others & Hu & Hh & -> & ->).
  cbn [generateUrlOf] in Hu.
  apply (generateUrlOf_Normal_inv StrictV env) in Hu
    as (b & props & -> & -> & Ha & Hq).
  apply accepts_strict_loose in Ha.
  pose proof (eq_trans (generateUrlOf_accepted LooseV env _ _ Ha) Hq) as Hl.
  cbn [generateUrlOf] in Hl.
  apply accepts_inv in Ha as (b' & props' & Eb & Ep & Hb & Hk).
  injection Eb as <-. injection Ep as <-.
  pose proof script_insertion as Ht. cbv zeta in Ht.
  exists b. split; [reflexivity|].
  unfold Loose.asyncScriptLoader.
  rewrite (proj2 (jsstring_eqb_neq _ _) Hb).
  split.
  - intros Hs Hnone. now rewrite Hs, Hnone.
  - intros Hparse.
    replace ((startsWith b (js "http") || startsWith b (js "https"))
             && match URL_protocol env b None with None => true | Some _ => false end)
      with false.
    2:{ destruct (startsWith b (js "http") || startsWith b (js "https")); [|reflexivity].
        destruct (URL_protocol env b None); [reflexivity|].
        now destruct (Hparse eq_refl). }
    rewrite Hk. cbv zeta. rewrite Hl.
    destruct (window_location_origin env); [|congruence].
    now rewrite Ht, Hh.
Qed.

Lemma strict_race_in_loose_witness :
  (exists r d',
     Strict.asyncScriptLoader browser (JString (js "https://cdn.example.com/w.js"))
       (JObject []) page = (Normal (Racing r), d') /\
     Loose.asyncScriptLoader browser (JString (js "https://cdn.example.com/w.js"))
       (JObject []) page = (Normal (Racing r), d')) /\
  (exists r d',
     Strict.asyncScriptLoader browser (JString (js "http-assets/w.js"))
       (JObject []) page = (Normal (Racing r), d') /\
     Loose.asyncScriptLoader browser (JString (js "http-assets/w.js"))
       (JObject []) page
     = (Normal (RejectedPromise (newError (js "baseUrl must be a valid URL"))), page)).
Proof.
  split.
  - eexists. eexists. split; [reflexivity|].
    destruct (strict_race_in_loose browser
                (JString (js "https://cdn.example.com/w.js")) (JObject []) page _ _
                eq_refl) as (b & Eb & _ & Hsame).
    apply Hsame. injection Eb as <-. intros _. discriminate.
  - eexists. eexists. split; [reflexivity|].
    destruct (strict_race_in_loose browser
                (JString (js "http-assets/w.js")) (JObject []) page _ _
                eq_refl) as (b & Eb & Hrej & _).
    apply Hrej; injection Eb as <-; reflexivity.
Defined.

(* ===================================================================== *)
(** ** What validation accepts *)
(* ===================================================================== *)

Lemma validateKeys_Valid props ks :
  Strict.validateKeys props ks = Valid <->
  Forall (fun key => trim key <> [] /\ exists s, get props key = JString s) ks.
Proof.
  induction ks as [|key ks IH]; cbn [Strict.validateKeys].
  - split; [constructor|reflexivity].
  - destruct (jsstring_eqb (trim key) []) eqn:Hk.
    + split; [discriminate|]. intros H. inversion H as [|? ? [Hn _] _]; subst.
      apply jsstring_eqb_eq in Hk. contradiction.
    + apply jsstring_eqb_neq in Hk.
      destruct (get props key) eqn:Hg;
        try (split; [discriminate|];
             intros H; inversion H as [|? ? [_ [s Hs]] _]; congruence).
      rewrite IH. split.
      * intros H. constructor; eauto.
      * intros H. now inversion H.
Qed.

(** X6.  The strict validator accepts exactly the calls in which the base
    URL is a string that is not blank and that the URL parser, given the
    origin of the page as base, resolves to the protocol http: or https:,
    and the parameters are a plain object whose keys are not blank and whose
    values are all strings. *)
Theorem validateInputs_accepts_exactly env baseUrl params :
  Strict.validateInputs env baseUrl params = Valid <->
  exists b props origin protocol,
    baseUrl = JString b /\ params = JObject props /\
    trim b <> [] /\
    window_location_origin env = Some origin /\
    URL_protocol env b (Some origin) = Some protocol /\
    (protocol = js "http:" \/ protocol = js "https:") /\
    Forall (fun key => trim key <> [] /\ exists s, get props key = JString s)
      (keys props).
Proof.
  split.
  - intros H. apply validateInputs_Valid in H
      as (b & props & origin & protocol & -> & -> & Hb & Ho & Hu & Hp & Hk).
    exists b, props, origin, protocol. repeat split; auto.
    now apply validateKeys_Valid.
  - intros (b & props & origin & protocol & -> & -> & Hb & Ho & Hu & Hp & Hk).
    rewrite validateInputs_acceptable.
    + now apply validateKeys_Valid.
    + split; [exact Hb|]. exists origin, protocol. auto.
Qed.

(** X10.  A builder throws "baseUrl cannot be empty" exactly for the base
    URLs made of white space only, the empty string among them. *)
Theorem blank_baseUrl_rejected v env b params :
  generateUrlOf v env (JString b) params = Throw (newError (js "baseUrl cannot be empty"))
  <-> List.forallb isWhiteSpace b = true.
Proof.
  rewrite <- trim_nil, <- jsstring_eqb_eq.
  destruct (jsstring_eqb (trim b) []) eqn:Hb.
  - split; [reflexivity|]. intros _.
    destruct v; unfold generateUrlOf, Strict.generateUrl, Strict.validateInputs,
      Loose.generateUrl; now rewrite Hb.
  - split; [|discriminate]. intros H. exfalso.
    destruct (accepts v env (JString b) params) eqn:Ha.
    + destruct (accepts_inv _ _ _ _ Ha) as (b' & props & Eb & -> & _).
      destruct (accepted_outcome _ _ _ _ Ha) as [[url Hu]|Hu];
        rewrite Hu in H; discriminate.
    + destruct v; unfold generateUrlOf, accepts in *.
      * unfold Strict.generateUrl in H.
        destruct (Strict.validateInputs env (JString b) params) eqn:Hv; [discriminate|].
        injection H as ->. unfold Strict.validateInputs in Hv. rewrite Hb in Hv.
        destruct (match window_location_origin env with
                  | Some origin => URL_protocol env b (Some origin)
                  | None => None
                  end); [|discriminate].
        destruct (negb _ && negb _); [discriminate|].
        destruct params as [| | | | | |props]; try discriminate.
        clear Ha. induction (keys props) as [|key ks IH];
          cbn [Strict.validateKeys] in Hv; [discriminate|].
        destruct (jsstring_eqb (trim key) []); [discriminate|].
        destruct (get props key); try discriminate. auto.
      * unfold Loose.generateUrl in H. rewrite Hb in H.
        destruct params as [| | | | | |props]; try discriminate.
        destruct (firstNonString props (keys props)); [discriminate|].
        rewrite Hb in Ha. discriminate.
Qed.

(** X13.  A URL a builder returns is the base URL itself exactly when the
    parameter mapping is empty. *)
Theorem unchanged_iff_no_params v env b props url :
  generateUrlOf v env (JString b) (JObject props) = Normal url ->
  (url = b <-> props = []).
Proof.
  intros H. apply generateUrlOf_Normal_inv in H as (b' & props' & Eb & Ep & _ & H).
  injection Eb as <-. injection Ep as <-.
  unfold appendQuery in H. destruct props as [|kv props].
  - injection H as <-. tauto.
  - destruct (encodePairs (kv :: props) (keys (kv :: props))) as [pairs|] eqn:He;
      [|discriminate].
    cbn [bind] in H. injection H as <-.
    split; [|discriminate]. intros E. exfalso.
    assert (E' : b ++ joinPairs (if includes b (js "?") then js "&" else js "?") pairs
                 = b ++ []) by now rewrite app_nil_r.
    apply app_inv_head in E'. clear E. rename E' into E.
    destruct pairs as [|first rest]; [apply encodePairs_Forall2 in He; inversion He|].
    cbn [joinPairs] in E. destruct (includes b (js "?")); discriminate.
Qed.

Lemma unchanged_iff_no_params_witness :
  js "/w.js?v=2" = js "/w.js" <-> [(js "v", JString (js "2"))] = [].
Proof.
  apply (unchanged_iff_no_params StrictV browser). reflexivity.
Defined.

(** X8.  Where every key and every value consists of unescaped characters
    (letters, digits and - _ . ! ~ * ' ( )), the URL a builder returns holds
    them verbatim: the base URL, the separator, then [key=value] joined with
    [&]. *)
Theorem unescaped_params_verbatim v env b props :
  accepts v env (JString b) (JObject props) = true ->
  paramsUnescaped props = true ->
  generateUrlOf v env (JString b) (JObject props)
  = Normal (b ++ joinPairs (if includes b (js "?") then js "&" else js "?")
                   (List.map (fun key => key ++ js "=" ++ ToString (get props key))
                      (keys props))).
Proof.
  intros Ha Hu. rewrite (generateUrlOf_accepted _ _ _ _ Ha).
  assert (He : forall ks,
    List.forallb (fun key => List.forallb isUnescaped key
                             && List.forallb isUnescaped (ToString (get props key))) ks
    = true ->
    encodePairs props ks
    = Normal (List.map (fun key => key ++ js "=" ++ ToString (get props key)) ks)).
  { induction ks as [|key ks IH]; [reflexivity|].
    cbn [List.forallb encodePairs List.map]. intros H.
    apply andb_true_iff in H as [Hkv Hks]. apply andb_true_iff in Hkv as [Hk Hv].
    unfold encodeURIComponent. cbn [ToString].
    now rewrite (Encode_unescaped _ Hk), (Encode_unescaped _ Hv), (IH Hks). }
  unfold appendQuery. destruct props as [|kv props].
  - cbn [keys List.map joinPairs]. now rewrite app_nil_r.
  - now rewrite (He _ Hu).
Qed.

Lemma unescaped_params_verbatim_witness :
  generateUrlOf LooseV browser (JString (js "/w.js"))
    (JObject [(js "v", JString (js "2.0")); (js "id", JString (js "a_b"))])
  = Normal (js "/w.js?v=2.0&id=a_b").
Proof.
  apply (unescaped_params_verbatim LooseV browser (js "/w.js")
           [(js "v", JString (js "2.0")); (js "id", JString (js "a_b"))]
           eq_refl eq_refl).
Defined.

(* ===================================================================== *)
(** ** The query string as a whole *)
(* ===================================================================== *)

Lemma encodePairs_units props ks pairs :
  Forall (fun key => exists v, get props key = JString v) ks ->
  List.forallb (fun key => isWellFormed key && isWellFormed (ToString (get props key))) ks
    = true ->
  encodePairs props ks = Normal pairs ->
  Forall (Forall (fun u => isUnescaped u = true \/ u = 37 \/ u = 61)) pairs.
Proof.
  intros Hstr. revert pairs.
  induction Hstr as [|key ks [v Hv] _ IH]; intros pairs; cbn [List.forallb encodePairs].
  - intros _ H. injection H as <-. constructor.
  - intros Hwf. apply andb_true_iff in Hwf as [Hkv Hwf].
    apply andb_true_iff in Hkv as [Hk Hval].
    destruct (decodeURIComponent_Encode key Hk) as (ek & Hek & Huk & _).
    destruct (decodeURIComponent_Encode _ Hval) as (ev & Hev & Huv & _).
    unfold encodeURIComponent. cbn [ToString]. rewrite Hek, Hev. cbn [bind].
    destruct (encodePairs props ks) as [rest|] eqn:Hr; [|discriminate].
    cbn [bind]. intros H. injection H as <-.
    constructor; [|now apply IH].
    apply Forall_app. split.
    + eapply Forall_impl; [|exact Huk]. cbn. tauto.
    + constructor; [auto|]. eapply Forall_impl; [|exact Huv]. cbn. tauto.
Qed.

(** What an accepted, well-formed mapping is turned into: a query string
    that decodes to the keys with their values. *)
Lemma appendQuery_decodes b props :
  firstNonString props (keys props) = None ->
  wellFormedParams props = true ->
  exists query,
    appendQuery b props = Normal (b ++ query) /\
    decodeQueryString query
    = Some (List.map (fun key => (key, ToString (get props key))) (keys props)) /\
    Forall (fun u => isUnescaped u = true \/ u = 37 \/ u = 61 \/ u = 38 \/ u = 63) query.
Proof.
  intros Hk Hwf. pose proof (firstNonString_None _ _ Hk) as Hstr.
  destruct (encodePairs_decodePairs props (keys props) Hstr Hwf)
    as (pairs & He & _ & Hsafe & Hd).
  pose proof (encodePairs_units _ _ _ Hstr Hwf He) as Hunits.
  unfold appendQuery. destruct props as [|kv props].
  - exists []. rewrite app_nil_r. repeat split; constructor.
  - rewrite He. cbn [bind].
    destruct pairs as [|first rest]; [discriminate|].
    exists (joinPairs (if includes b (js "?") then js "&" else js "?") (first :: rest)).
    split; [reflexivity|].
    assert (Hsep : exists c, (if includes b (js "?") then js "&" else js "?") = [c]
                             /\ (c = 63 \/ c = 38)).
    { destruct (includes b (js "?")); [exists 38|exists 63]; auto. }
    destruct Hsep as (c & -> & Hc). cbn [joinPairs app].
    inversion Hsafe as [|? ? (_ & H38 & _) Hrest]; subst.
    inversion Hunits as [|? ? Hfirst Hurest]; subst.
    split.
    + unfold decodeQueryString.
      replace ((c =? 63) || (c =? 38)) with true
        by (destruct Hc as [-> | ->]; reflexivity).
      rewrite splitOn_join; [exact Hd|].
      constructor; [exact H38|].
      eapply Forall_impl; [|exact Hrest]. cbn. tauto.
    + constructor; [tauto|]. apply Forall_app. split.
      * eapply Forall_impl; [|exact Hfirst]. cbn. tauto.
      * apply Forall_forall. intros u Hu. apply in_flat_map in Hu as (q & Hq & Hu).
        destruct Hu as [<-|Hu]; [tauto|].
        rewrite Forall_forall in Hurest. specialize (Hurest q Hq).
        rewrite Forall_forall in Hurest. specialize (Hurest u Hu). tauto.
Qed.

(** X12.  On accepted input with well-formed keys and values, what a
    builder appends to the base URL is made of unescaped characters and of
    [%], [=], [&], [?] only: all of it printable ASCII, with none of the
    characters a URL has to escape. *)
Theorem query_is_url_safe v env b props :
  accepts v env (JString b) (JObject props) = true ->
  wellFormedParams props = true ->
  exists query,
    generateUrlOf v env (JString b) (JObject props) = Normal (b ++ query) /\
    Forall (fun u => isUnescaped u = true \/ u = 37 \/ u = 61 \/ u = 38 \/ u = 63) query /\
    Forall (fun u => 33 <= u <= 126) query.
Proof.
  intros Ha Hwf. rewrite (generateUrlOf_accepted _ _ _ _ Ha).
  destruct (accepts_inv _ _ _ _ Ha) as (b' & props' & Eb & Ep & _ & Hk).
  injection Eb as <-. injection Ep as <-.
  destruct (appendQuery_decodes b props Hk Hwf) as (query & Hq & _ & Hu).
  exists query. repeat split; auto.
  eapply Forall_impl; [|exact Hu]. cbn. intros u [H|H]; [|lia].
  now apply unescaped_ascii in H.
Qed.

Lemma query_is_url_safe_witness :
  exists query,
    generateUrlOf StrictV browser (JString (js "https://cdn.example.com/w.js"))
      (JObject [(js "a b", JString [233; 55357; 56832])])
    = Normal (js "https://cdn.example.com/w.js" ++ query) /\
    Forall (fun u => isUnescaped u = true \/ u = 37 \/ u = 61 \/ u = 38 \/ u = 63) query /\
    Forall (fun u => 33 <= u <= 126) query.
Proof.
  apply (query_is_url_safe StrictV browser (js "https://cdn.example.com/w.js")
           [(js "a b", JString [233; 55357; 56832])] eq_refl eq_refl).
Defined.

(** X11.  With the same base URL, two well-formed parameter mappings that a
    builder turns into the same URL have the same entries, in the same
    order: no two different mappings collide. *)
Theorem builder_injective v env b props1 props2 url :
  generateUrlOf v env (JString b) (JObject props1) = Normal url ->
  generateUrlOf v env (JString b) (JObject props2) = Normal url ->
  wellFormedParams props1 = true ->
  wellFormedParams props2 = true ->
  entries props1 = entries props2.
Proof.
  intros H1 H2 Hwf1 Hwf2.
  assert (Hent : forall props,
    firstNonString props (keys props) = None ->
    List.map (fun kv => (fst kv, JString (snd kv)))
      (List.map (fun key => (key, ToString (get props key))) (keys props))
    = entries props).
  { intros props Hk. apply firstNonString_None in Hk.
    unfold entries. rewrite map_map. apply map_ext_in. intros key Hin.
    rewrite Forall_forall in Hk. destruct (Hk key Hin) as [s Hs].
    cbn [fst snd]. now rewrite Hs. }
  pose proof (generateUrlOf_Normal _ _ _ _ _ H1) as Ha1.
  pose proof (generateUrlOf_Normal _ _ _ _ _ H2) as Ha2.
  rewrite (generateUrlOf_accepted _ _ _ _ Ha1) in H1.
  rewrite (generateUrlOf_accepted _ _ _ _ Ha2) in H2.
  destruct (accepts_inv _ _ _ _ Ha1) as (b1 & p1 & Eb1 & Ep1 & _ & Hk1).
  destruct (accepts_inv _ _ _ _ Ha2) as (b2 & p2 & Eb2 & Ep2 & _ & Hk2).
  injection Ep1 as <-. injection Ep2 as <-.
  destruct (appendQuery_decodes b props1 Hk1 Hwf1) as (q1 & Hq1 & Hd1 & _).
  destruct (appendQuery_decodes b props2 Hk2 Hwf2) as (q2 & Hq2 & Hd2 & _).
  assert (Eq : q1 = q2) by (apply (app_inv_head b); congruence).
  subst q2. rewrite <- (Hent _ Hk1), <- (Hent _ Hk2). congruence.
Qed.

Lemma builder_injective_witness :
  entries [(js "v", JString (js "2"))] = entries [(js "v", JString (js "2"))].
Proof.
  apply (builder_injective LooseV browser (js "/w.js") _ _ (js "/w.js?v=2"));
    reflexivity.
Defined.

(* ===================================================================== *)
(** ** Adding parameters in two steps *)
(* ===================================================================== *)

Lemma encodePairs_ext p p' ks :
  (forall k, In k ks -> get p k = get p' k) ->
  encodePairs p ks = encodePairs p' ks.
Proof.
  induction ks as [|key ks IH]; [reflexivity|]. intros H.
  cbn [encodePairs]. rewrite (H key) by now left.
  rewrite IH; [reflexivity|]. intros k Hk. apply H. now right.
Qed.

Lemma encodePairs_app p ks1 ks2 :
  encodePairs p (ks1 ++ ks2) =
  (a <- encodePairs p ks1 ;; b <- encodePairs p ks2 ;; Normal (a ++ b)).
Proof.
  induction ks1 as [|key ks1 IH]; cbn [app encodePairs].
  - cbn [bind]. now destruct (encodePairs p ks2).
  - destruct (encodeURIComponent (JString key)); cbn [bind]; [|reflexivity].
    destruct (encodeURIComponent (get p key)); cbn [bind]; [|reflexivity].
    rewrite IH. destruct (encodePairs p ks1); cbn [bind]; [|reflexivity].
    now destruct (encodePairs p ks2).
Qed.

Lemma firstNonString_None_iff props ks :
  firstNonString props ks = None <->
  Forall (fun key => exists v, get props key = JString v) ks.
Proof.
  split; [apply firstNonString_None|].
  induction 1 as [|key ks [s Hs] _ IH]; [reflexivity|].
  cbn [firstNonString]. now rewrite Hs.
Qed.

(** Acceptance is acceptance of the base URL together with a condition on
    every key. *)
Lemma accepts_keys v env b props :
  accepts v env (JString b) (JObject props) = true <->
  accepts v env (JString b) (JObject []) = true /\
  Forall (keyPasses v props) (keys props).
Proof.
  destruct v; unfold accepts.
  - unfold Strict.validateInputs.
    destruct (jsstring_eqb (trim b) []); [cbn; split; [discriminate|tauto]|].
    destruct (match window_location_origin env with
              | Some origin => URL_protocol env b (Some origin)
              | None => None
              end); [|cbn; split; [discriminate|tauto]].
    destruct (negb _ && negb _); [cbn; split; [discriminate|tauto]|].
    cbn [keys List.map Strict.validateKeys valid].
    change (List.map fst props) with (keys props).
    destruct (Strict.validateKeys props (keys props)) eqn:Hv.
    + apply validateKeys_Valid in Hv. split; [|reflexivity]. intros _.
      split; [reflexivity|]. eapply Forall_impl; [|exact Hv].
      intros key [H1 H2]. split; auto.
    + cbn [valid]. split; [discriminate|]. intros [_ H]. exfalso.
      assert (Hc : Strict.validateKeys props (keys props) = Valid).
      { apply validateKeys_Valid. eapply Forall_impl; [|exact H].
        intros key [H1 H2]. split; auto. }
      congruence.
  - cbn [keys List.map firstNonString].
    change (List.map fst props) with (keys props).
    destruct (negb (jsstring_eqb (trim b) [])); cbn [andb]; [|split; [discriminate|tauto]].
    destruct (firstNonString props (keys props)) eqn:Hk.
    + split; [discriminate|]. intros [_ H]. exfalso.
      assert (Hc : firstNonString props (keys props) = None).
      { apply firstNonString_None_iff. eapply Forall_impl; [|exact H].
        now intros key [_ H2]. }
      congruence.
    + apply firstNonString_None_iff in Hk. split; [|reflexivity]. intros _.
      split; [reflexivity|]. eapply Forall_impl; [|exact Hk].
      intros key H. split; [discriminate|exact H].
Qed.

(** Past validation, the URL depends on a mapping only through its keys in
    order and through what each key reads. *)
Lemma appendQuery_ext b props props' :
  keys props' = keys props ->
  (forall k, In k (keys props) -> get props' k = get props k) ->
  appendQuery b props' = appendQuery b props.
Proof.
  intros Hk Hg. unfold appendQuery.
  destruct props' as [|kv' props'], props as [|kv props]; try discriminate;
    [reflexivity|].
  rewrite Hk. now rewrite (encodePairs_ext _ (kv :: props) _ Hg).
Qed.

(** X9.  Adding parameters in two steps is adding them at once: if a
    builder turns the base URL and a first mapping into a URL, and that URL
    and a second mapping into a second URL, then it turns the base URL and
    any mapping that lists the keys of the first, then the keys of the
    second, each with the value it had, into that second URL.  (An object
    lists its keys in that order when none of them is an integer index.) *)
Theorem builder_composes v env b props1 props2 merged url1 url2 :
  generateUrlOf v env (JString b) (JObject props1) = Normal url1 ->
  generateUrlOf v env (JString url1) (JObject props2) = Normal url2 ->
  keys merged = keys props1 ++ keys props2 ->
  (forall k, In k (keys props1) -> get merged k = get props1 k) ->
  (forall k, In k (keys props2) -> get merged k = get props2 k) ->
  generateUrlOf v env (JString b) (JObject merged) = Normal url2.
Proof.
  intros H1 H2 Hkeys Hget1 Hget2.
  pose proof (generateUrlOf_Normal _ _ _ _ _ H1) as Ha1.
  pose proof (generateUrlOf_Normal _ _ _ _ _ H2) as Ha2.
  rewrite (generateUrlOf_accepted _ _ _ _ Ha1) in H1.
  rewrite (generateUrlOf_accepted _ _ _ _ Ha2) in H2.
  assert (Ha : accepts v env (JString b) (JObject merged) = true).
  { apply accepts_keys in Ha1 as [Hb Hk1]. apply accepts_keys in Ha2 as [_ Hk2].
    apply accepts_keys. split; [exact Hb|].
    rewrite Hkeys. apply Forall_app. rewrite Forall_forall in Hk1, Hk2. split;
      apply Forall_forall; intros k Hk; unfold keyPasses in *.
    - rewrite (Hget1 k Hk). now apply Hk1.
    - rewrite (Hget2 k Hk). now apply Hk2. }
  rewrite (generateUrlOf_accepted _ _ _ _ Ha).
  destruct props2 as [|kv2 props2].
  { cbn [appendQuery] in H2. injection H2 as <-.
    cbn [keys List.map] in Hkeys. rewrite app_nil_r in Hkeys.
    now rewrite (appendQuery_ext b props1 merged Hkeys Hget1). }
  destruct props1 as [|kv1 props1].
  { cbn [appendQuery] in H1. injection H1 as <-.
    now rewrite (appendQuery_ext b (kv2 :: props2) merged Hkeys Hget2). }
  unfold appendQuery in H1, H2.
  destruct (encodePairs (kv1 :: props1) (keys (kv1 :: props1))) as [pairs1|] eqn:He1;
    [|discriminate].
  destruct (encodePairs (kv2 :: props2) (keys (kv2 :: props2))) as [pairs2|] eqn:He2;
    [|discriminate].
  cbn [bind] in H1, H2. injection H1 as <-. injection H2 as <-.
  destruct pairs1 as [|first1 rest1]; [apply encodePairs_Forall2 in He1; inversion He1|].
  destruct pairs2 as [|first2 rest2]; [apply encodePairs_Forall2 in He2; inversion He2|].
  unfold appendQuery. destruct merged as [|m merged]; [discriminate Hkeys|].
  rewrite Hkeys, encodePairs_app.
  rewrite (encodePairs_ext _ (kv1 :: props1) (keys (kv1 :: props1))) by exact Hget1.
  rewrite (encodePairs_ext _ (kv2 :: props2) (keys (kv2 :: props2))) by exact Hget2.
  rewrite He1, He2. cbn [bind]. f_equal.
  set (sep := if includes b (js "?") then js "&" else js "?").
  assert (Hq : includes (b ++ joinPairs sep (first1 :: rest1)) (js "?") = true).
  { change (js "?") with [63]. apply includes_unit. apply in_or_app.
    destruct (includes b (js "?")) eqn:Hb.
    - left. now apply includes_unit.
    - right. subst sep. cbn [joinPairs app]. now left. }
  rewrite Hq. cbn [joinPairs app]. rewrite <- !app_assoc. f_equal. f_equal.
  rewrite flat_map_app. cbn [List.flat_map]. rewrite <- !app_assoc. reflexivity.
Qed.

Lemma builder_composes_witness :
  generateUrlOf LooseV browser (JString (js "/w.js"))
    (JObject [(js "v", JString (js "2")); (js "q", JString (js "x y"))])
  = Normal (js "/w.js?v=2&q=x%20y").
Proof.
  apply (builder_composes LooseV browser (js "/w.js")
           [(js "v", JString (js "2"))] [(js "q", JString (js "x y"))] _
           (js "/w.js?v=2")); try reflexivity.
  - intros k [<-|[]]. reflexivity.
  - intros k [<-|[]]. reflexivity.
Defined.

(* ===================================================================== *)
(** ** The document across a call *)
(* ===================================================================== *)

(** In a document whose handles are bound, the next handle is in no head. *)
Lemma handlesBound_fresh d children :
  handlesBound d = true -> In children (heads d) ->
  ~ In (ScriptNode (List.length (created d))) children.
Proof.
  unfold handlesBound. rewrite forallb_forall. intros H Hc Hin.
  specialize (H children Hc). rewrite forallb_forall in H.
  specialize (H _ Hin). cbn in H. apply Nat.ltb_lt in H. lia.
Qed.

Lemma handlesBound_removeNodes d :
  handlesBound d = true ->
  List.map (removeNode (ScriptNode (List.length (created d)))) (heads d) = heads d.
Proof.
  intros H. rewrite <- (map_id (heads d)) at 2. apply map_ext_in.
  intros children Hc. apply removeNode_absent. now apply handlesBound_fresh.
Qed.

(** The first event leaves the timer cleared and the listeners detached. *)
Lemma first_dispatch_quiet d' el url first :
  let w := dispatch first (mkWorld d' (newRace el url 2000)) in
  timeoutPending (race w) = false /\ loadListener (race w) = false
  /\ errorListener (race w) = false.
Proof. destruct first; repeat split. Qed.

(** Only the first event matters to the state. *)
Lemma run_first d' el url first later :
  run (first :: later) (mkWorld d' (newRace el url 2000))
  = dispatch first (mkWorld d' (newRace el url 2000)).
Proof.
  unfold run. cbn [List.fold_left].
  destruct (first_dispatch_quiet d' el url first) as (H1 & H2 & H3).
  now apply run_quiet.
Qed.

(** X3.  In a document whose script handles are all bound, a call that
    reaches the race has appended the new element after the children of the
    first head and moved nothing else; if the load then fails, by error or
    by timeout, every head has exactly the children it had before the
    call. *)
Theorem failed_load_restores_tree v env baseUrl params d r d' :
  asyncScriptLoaderOf v env baseUrl params d = (Normal (Racing r), d') ->
  handlesBound d = true ->
  (exists children others,
     heads d = children :: others /\
     heads d' = (children ++ [ScriptNode (scriptElement r)]) :: others) /\
  heads (document (dispatch ErrorEvent (mkWorld d' r))) = heads d /\
  heads (document (dispatch TimerExpires (mkWorld d' r))) = heads d.
Proof.
  intros H Hb. apply loader_Racing in H
    as (url & children & others & _ & Hh & -> & ->).
  pose proof (handlesBound_removeNodes d Hb) as Hrm. rewrite Hh in Hrm.
  cbn [List.map] in Hrm. injection Hrm as Hc Ho.
  cbn [newRace scriptElement].
  split.
  - exists children, others. cbn [heads]. now rewrite Hc, Ho.
  - pose proof (cleanup_removes (created d ++ [mkScript url true])
                  (newRace (List.length (created d)) url 2000) children others) as Hcl.
    cbn [newRace scriptElement] in Hcl.
    split.
    + unfold dispatch, onError, settle. cbn [race newRace errorListener document].
      rewrite Hcl. cbn [heads List.map]. now rewrite Hc, Ho, Hh.
    + unfold dispatch, onTimeout, settle. cbn [race newRace timeoutPending document].
      change (cleanup true (expire ?w)) with (cleanup true w).
      rewrite Hcl. cbn [heads List.map]. now rewrite Hc, Ho, Hh.
Qed.

Lemma failed_load_restores_tree_witness :
  exists r d',
    Strict.asyncScriptLoader browser (JString (js "https://cdn.example.com/w.js"))
      (JObject []) page = (Normal (Racing r), d') /\
    heads d' = [[DocNode 0; DocNode 1; ScriptNode 0]] /\
    heads (document (dispatch TimerExpires (mkWorld d' r))) = heads page.
Proof.
  eexists. eexists. split; [reflexivity|]. split; [reflexivity|].
  apply (failed_load_restores_tree StrictV browser
           (JString (js "https://cdn.example.com/w.js")) (JObject []) page _ _
           eq_refl eq_refl).
Defined.

(** X4.  A call that reaches the race has created exactly one element, the
    one the race is about: its source is the constructed URL and it is
    marked async; the elements created before are untouched, and no event
    ever changes or adds an element. *)
Theorem one_script_element v env baseUrl params d r d' :
  asyncScriptLoaderOf v env baseUrl params d = (Normal (Racing r), d') ->
  scriptElement r = List.length (created d) /\
  created d' = created d ++ [mkScript (constructedUrl r) true] /\
  nth_error (created d') (scriptElement r) = Some (mkScript (constructedUrl r) true) /\
  (forall events, created (document (run events (mkWorld d' r))) = created d').
Proof.
  intros H. apply loader_Racing in H
    as (url & children & others & _ & Hh & -> & ->).
  cbn [newRace scriptElement constructedUrl created].
  split; [reflexivity|]. split; [reflexivity|]. split.
  - rewrite nth_error_app2 by lia. now rewrite Nat.sub_diag.
  - intros [|first later]; [reflexivity|]. rewrite run_first.
    pose proof (cleanup_removes (created d ++ [mkScript url true])
                  (newRace (List.length (created d)) url 2000) children others) as Hcl.
    cbn [newRace scriptElement] in Hcl.
    destruct first; unfold dispatch; cbn [race newRace loadListener errorListener
                                          timeoutPending].
    + reflexivity.
    + unfold onError, settle. cbn [document]. now rewrite Hcl.
    + unfold onTimeout, settle. cbn [document].
      change (cleanup true (expire ?w)) with (cleanup true w). now rewrite Hcl.
Qed.

Lemma one_script_element_witness :
  exists r d',
    Loose.asyncScriptLoader browser (JString (js "/w.js"))
      (JObject [(js "v", JString (js "2"))]) page = (Normal (Racing r), d') /\
    nth_error (created d') (scriptElement r) = Some (mkScript (js "/w.js?v=2") true).
Proof.
  eexists. eexists. split; [reflexivity|].
  apply (one_script_element LooseV browser (JString (js "/w.js"))
           (JObject [(js "v", JString (js "2"))]) page _ _ eq_refl).
Defined.

(** X5.  Where a [window] exists and the document has a head, every call
    whose arguments validation accepts and whose keys and values are
    well-formed reaches the race, on the URL the builder returns; for the
    loose version the base URL, if it starts with "http", must also parse
    without a base. *)
Theorem valid_call_starts_race v env b props d origin :
  window_location_origin env = Some origin ->
  heads d <> [] ->
  accepts v env (JString b) (JObject props) = true ->
  wellFormedParams props = true ->
  (v = LooseV ->
   startsWith b (js "http") || startsWith b (js "https") = true ->
   URL_protocol env b None <> None) ->
  exists r d',
    asyncScriptLoaderOf v env (JString b) (JObject props) d = (Normal (Racing r), d') /\
    generateUrlOf v env (JString b) (JObject props) = Normal (constructedUrl r) /\
    promise r = Pending.
Proof.
  intros Hw Hh Ha Hwf Hurl.
  destruct (generateUrlOf_returns _ _ _ _ Ha Hwf) as [url Hu].
  pose proof script_insertion as Ht. cbv zeta in Ht.
  destruct (heads d) as [|children others] eqn:Hd; [congruence|].
  destruct v; unfold asyncScriptLoaderOf, generateUrlOf in *.
  - unfold Strict.asyncScriptLoader. rewrite Hw.
    unfold accepts in Ha.
    destruct (Strict.validateInputs env (JString b) (JObject props)); [|discriminate].
    cbv zeta. rewrite Hu, Ht, Hd. eexists. eexists.
    split; [reflexivity|]. split; reflexivity.
  - unfold Loose.asyncScriptLoader.
    unfold accepts in Ha. apply andb_true_iff in Ha as [Hb Hk].
    apply negb_true_iff in Hb. rewrite Hb.
    replace ((startsWith b (js "http") || startsWith b (js "https"))
             && match URL_protocol env b None with None => true | Some _ => false end)
      with false.
    2:{ destruct (startsWith b (js "http") || startsWith b (js "https")); [|reflexivity].
        destruct (URL_protocol env b None); [reflexivity|].
        now destruct (Hurl eq_refl eq_refl). }
    destruct (firstNonString props (keys props)); [discriminate|].
    cbv zeta. rewrite Hu, Hw, Ht, Hd. eexists. eexists.
    split; [reflexivity|]. split; reflexivity.
Qed.

Lemma valid_call_starts_race_witness :
  exists r d',
    asyncScriptLoaderOf LooseV browser (JString (js "https://cdn.example.com/w.js"))
      (JObject [(js "v", JString (js "2"))]) page = (Normal (Racing r), d') /\
    generateUrlOf LooseV browser (JString (js "https://cdn.example.com/w.js"))
      (JObject [(js "v", JString (js "2"))]) = Normal (constructedUrl r) /\
    promise r = Pending.
Proof.
  apply (valid_call_starts_race LooseV browser (js "https://cdn.example.com/w.js")
           [(js "v", JString (js "2"))] page (js "https://example.com")
           eq_refl ltac:(discriminate) eq_refl eq_refl).
  intros _ _. discriminate.
Defined.

(** X16.  Running [cleanup] once more after the race has been decided
    changes nothing: after a failure with either argument, the element
    having no parent any more; after a success with [false], the argument
    the load handler uses. *)
Theorem cleanup_again v env baseUrl params d r d' first removeElement :
  asyncScriptLoaderOf v env baseUrl params d = (Normal (Racing r), d') ->
  (first = LoadEvent -> removeElement = false) ->
  cleanup removeElement (dispatch first (mkWorld d' r)) = dispatch first (mkWorld d' r).
Proof.
  intros H Hl. apply loader_Racing in H
    as (url & children & others & _ & _ & -> & ->).
  pose proof (cleanup_removes (created d ++ [mkScript url true])
                (newRace (List.length (created d)) url 2000) children others) as Hcl.
  cbn [newRace scriptElement] in Hcl.
  pose proof (removed_everywhere (ScriptNode (List.length (created d)))
                (children :: others)) as Hgone.
  destruct first.
  - rewrite (Hl eq_refl). reflexivity.
  - unfold dispatch, onError, settle.
    cbn [race newRace errorListener document scriptElement constructedUrl timeoutDuration
         timeoutPending loadListener promise settleCalls].
    rewrite Hcl. unfold cleanup at 1.
    cbn [race document scriptElement constructedUrl timeoutDuration promise settleCalls].
    unfold parentNode. cbn [heads]. rewrite (findParent_None _ _ _ Hgone).
    now destruct removeElement.
  - unfold dispatch, onTimeout, settle.
    cbn [race newRace document scriptElement constructedUrl timeoutDuration
         timeoutPending loadListener errorListener promise settleCalls].
    change (cleanup true (expire ?w)) with (cleanup true w).
    rewrite Hcl. unfold cleanup at 1.
    cbn [race document scriptElement constructedUrl timeoutDuration promise settleCalls].
    unfold parentNode. cbn [heads]. rewrite (findParent_None _ _ _ Hgone).
    now destruct removeElement.
Qed.

Lemma cleanup_again_witness :
  exists r d',
    Strict.asyncScriptLoader browser (JString (js "https://cdn.example.com/w.js"))
      (JObject []) page = (Normal (Racing r), d') /\
    cleanup true (dispatch ErrorEvent (mkWorld d' r)) = dispatch ErrorEvent (mkWorld d' r).
Proof.
  eexists. eexists. split; [reflexivity|].
  apply (cleanup_again StrictV browser (JString (js "https://cdn.example.com/w.js"))
           (JObject []) page _ _ ErrorEvent true eq_refl).
  discriminate.
Defined.

(** Whatever a call answers, it has left the document alone or has created
    one element and, where there is a head, appended it. *)
Lemma loader_document v env baseUrl params d result d' :
  asyncScriptLoaderOf v env baseUrl params d = (result, d') ->
  d' = d \/
  exists url,
    d' = mkDocument (created d ++ [mkScript url true])
           match heads d with
           | [] => []
           | children :: others =>
               (removeNode (ScriptNode (List.length (created d))) children
                ++ [ScriptNode (List.length (created d))])
               :: List.map (removeNode (ScriptNode (List.length (created d)))) others
           end.
Proof.
  pose proof script_insertion as Ht. cbv zeta in Ht.
  assert (Htail : forall url,
    (match heads d with
     | [] =>
         (Normal (RejectedPromise (newError (js "No <head> element found in document"))),
          mkDocument (created d ++ [mkScript url true]) [])
     | children :: others =>
         (Normal (Racing (newRace (List.length (created d)) url 2000)),
          mkDocument (created d ++ [mkScript url true])
            ((removeNode (ScriptNode (List.length (created d))) children
              ++ [ScriptNode (List.length (created d))])
             :: List.map (removeNode (ScriptNode (List.length (created d)))) others))
     end) = (result, d') ->
    exists url0,
      d' = mkDocument (created d ++ [mkScript url0 true])
             match heads d with
             | [] => []
             | children :: others =>
                 (removeNode (ScriptNode (List.length (created d))) children
                  ++ [ScriptNode (List.length (created d))])
                 :: List.map (removeNode (ScriptNode (List.length (created d)))) others
             end).
  { intros url H. exists url. destruct (heads d); injection H as _ <-; reflexivity. }
  destruct v; unfold asyncScriptLoaderOf.
  - unfold Strict.asyncScriptLoader.
    destruct (window_location_origin env); [|intros H; injection H as _ <-; now left].
    destruct (Strict.validateInputs env baseUrl params);
      [|intros H; injection H as _ <-; now left].
    cbv zeta. destruct (Strict.generateUrl env baseUrl params) as [url|];
      [|intros H; injection H as _ <-; now left].
    rewrite Ht. intros H. right. now apply (Htail url).
  - unfold Loose.asyncScriptLoader.
    destruct baseUrl as [| | | |b| |]; try (intros H; injection H as _ <-; now left).
    destruct (jsstring_eqb (trim b) []); [intros H; injection H as _ <-; now left|].
    match goal with |- context [if ?c then _ else _] => destruct c end;
      [intros H; injection H as _ <-; now left|].
    destruct params as [| | | | | |props]; try (intros H; injection H as _ <-; now left).
    destruct (firstNonString props (keys props));
      [intros H; injection H as _ <-; now left|].
    cbv zeta. destruct (Loose.generateUrl (JString b) (JObject props)) as [url|];
      [|intros H; injection H as _ <-; now left].
    destruct (window_location_origin env); [|intros H; injection H as _ <-; now left].
    rewrite Ht. intros H. right. now apply (Htail url).
Qed.

Lemma forallb_removeNode (f : Node -> bool) n children :
  List.forallb f children = true -> List.forallb f (removeNode n children) = true.
Proof.
  unfold removeNode. rewrite !forallb_forall. intros H x Hx.
  apply filter_In in Hx as [Hx _]. now apply H.
Qed.

Lemma bound_one_more (len : nat) (children : list Node) :
  List.forallb (fun n => match n with
                         | ScriptNode h => Nat.ltb h len
                         | DocNode _ => true
                         end) children = true ->
  List.forallb (fun n => match n with
                         | ScriptNode h => Nat.ltb h (S len)
                         | DocNode _ => true
                         end) children = true.
Proof.
  rewrite !forallb_forall. intros H n Hn. specialize (H n Hn).
  destruct n; [reflexivity|]. apply Nat.ltb_lt in H. apply Nat.ltb_lt. lia.
Qed.

(** Creating an element and removing nodes from the heads keeps the handles
    bound. *)
Lemma handlesBound_removed d extra n :
  handlesBound d = true ->
  handlesBound (mkDocument (created d ++ [extra]) (List.map (removeNode n) (heads d)))
  = true.
Proof.
  unfold handlesBound. cbn [created heads]. rewrite length_app. cbn [List.length].
  rewrite Nat.add_1_r. rewrite !forallb_forall. intros H children Hc.
  apply in_map_iff in Hc as (children0 & <- & Hc0).
  apply forallb_removeNode, bound_one_more. now apply H.
Qed.

(** So does appending the new element to the first head. *)
Lemma handlesBound_appended d extra children others :
  handlesBound d = true ->
  heads d = children :: others ->
  handlesBound
    (mkDocument (created d ++ [extra])
       ((removeNode (ScriptNode (List.length (created d))) children
         ++ [ScriptNode (List.length (created d))])
        :: List.map (removeNode (ScriptNode (List.length (created d)))) others))
  = true.
Proof.
  intros Hb Hh.
  pose proof (handlesBound_removed d extra (ScriptNode (List.length (created d))) Hb) as H.
  unfold handlesBound in *. cbn [created heads] in *. rewrite Hh in H.
  cbn [List.map List.forallb] in *. apply andb_true_iff in H as [H1 H2].
  rewrite H2, andb_true_r, forallb_app, H1. cbn [List.forallb andb].
  rewrite length_app. cbn [List.length]. rewrite andb_true_r.
  apply Nat.ltb_lt. lia.
Qed.

(** X17.  Calls and events keep the handles of the tree bound by the
    elements created: whatever a call answers, and whatever events follow a
    started race, every script node in the tree is an element that was
    created, so that the element of the next call is a new one. *)
Theorem handles_stay_bound v env baseUrl params d result d' :
  asyncScriptLoaderOf v env baseUrl params d = (result, d') ->
  handlesBound d = true ->
  handlesBound d' = true /\
  (forall r events,
     result = Normal (Racing r) ->
     handlesBound (document (run events (mkWorld d' r))) = true).
Proof.
  intros H Hb.
  assert (Hd' : handlesBound d' = true).
  { destruct (loader_document _ _ _ _ _ _ _ H) as [->|[url ->]]; [exact Hb|].
    destruct (heads d) as [|children others] eqn:Hh.
    - unfold handlesBound. reflexivity.
    - now apply handlesBound_appended. }
  split; [exact Hd'|].
  intros r events ->. pose proof H as Hr. apply loader_Racing in Hr
    as (url & children & others & _ & Hh & -> & ->).
  destruct events as [|first later]; [exact Hd'|]. rewrite run_first.
  pose proof (cleanup_removes (created d ++ [mkScript url true])
                (newRace (List.length (created d)) url 2000) children others) as Hcl.
  cbn [newRace scriptElement] in Hcl.
  pose proof (handlesBound_removed d (mkScript url true)
                (ScriptNode (List.length (created d))) Hb) as Hrm.
  rewrite Hh in Hrm.
  destruct first; unfold dispatch; cbn [race newRace loadListener errorListener
                                        timeoutPending].
  - exact Hd'.
  - unfold onError, settle. cbn [document]. now rewrite Hcl.
  - unfold onTimeout, settle. cbn [document].
    change (cleanup true (expire ?w)) with (cleanup true w). now rewrite Hcl.
Qed.

Lemma handles_stay_bound_witness :
  exists r d',
    Strict.asyncScriptLoader browser (JString (js "https://cdn.example.com/w.js"))
      (JObject []) page = (Normal (Racing r), d') /\
    handlesBound d' = true /\
    handlesBound (document (run [ErrorEvent; LoadEvent] (mkWorld d' r))) = true.
Proof.
  eexists. eexists. split; [reflexivity|].
  destruct (handles_stay_bound StrictV browser
              (JString (js "https://cdn.example.com/w.js")) (JObject []) page _ _
              eq_refl eq_refl) as [H1 H2].
  split; [exact H1|]. now apply H2.
Defined.

(** X15.  In the loose version too, an already-rejected answer leaves the
    tree of the document as it was; the document is wholly untouched unless
    the rejection is the one for the missing head, in which case the element
    had been created from the built URL and stays detached. *)
Theorem loose_rejections_leave_tree env baseUrl params d reason d' :
  Loose.asyncScriptLoader env baseUrl params d = (Normal (RejectedPromise reason), d') ->
  heads d' = heads d /\
  (d' = d \/
   heads d = [] /\
   reason = newError (js "No <head> element found in document") /\
   exists url,
     Loose.generateUrl baseUrl params = Normal url /\
     d' = mkDocument (created d ++ [mkScript url true]) []).
Proof.
  pose proof script_insertion as Ht. cbv zeta in Ht.
  unfold Loose.asyncScriptLoader.
  destruct baseUrl as [| | | |b| |]; try (intros H; injection H as _ <-; now auto).
  destruct (jsstring_eqb (trim b) []); [intros H; injection H as _ <-; now auto|].
  match goal with |- context [if ?c then _ else _] => destruct c end;
    [intros H; injection H as _ <-; now auto|].
  destruct params as [| | | | | |props]; try (intros H; injection H as _ <-; now auto).
  destruct (firstNonString props (keys props));
    [intros H; injection H as _ <-; now auto|].
  cbv zeta. destruct (Loose.generateUrl (JString b) (JObject props)) as [url|] eqn:Hu;
    [|discriminate].
  destruct (window_location_origin env); [|discriminate].
  rewrite Ht. destruct (heads d) as [|children others] eqn:Hh; [|discriminate].
  intros H. injection H as <- <-. cbn [heads]. split; [reflexivity|].
  right. repeat split. exists url. auto.
Qed.

Lemma loose_rejections_leave_tree_witness :
  exists url,
    Loose.generateUrl (JString (js "/w.js")) (JObject [(js "v", JString (js "2"))])
    = Normal url /\
    mkDocument [mkScript (js "/w.js?v=2") true] []
    = mkDocument (created noHeadPage ++ [mkScript url true]) [].
Proof.
  destruct (loose_rejections_leave_tree browser (JString (js "/w.js"))
              (JObject [(js "v", JString (js "2"))]) noHeadPage _ _ eq_refl)
    as [_ [H|(_ & _ & H)]]; [discriminate H|exact H].
Defined.
